(** * A shallow embedding of the YouTube downloader bot (bot.py)

    The development follows the layout of [bot.py]: Python strings and
    values first, then the pure helpers of [YouTubeBot]
    ([sanitize_filename], [format_duration], [is_youtube_url]), then the
    effectful methods ([get_video_info], [process_youtube_url],
    [handle_callback], [download_video], [download_audio],
    [download_and_send]) in a state-and-exception monad over an abstract
    host (the yt-dlp engine and the file system); what the bot sends on
    the chat is collected in an outbox. Logging is left out. *)

From Stdlib Require Import Ascii String DecimalString.
From Stdlib Require DecimalFacts DecimalN.
From stdpp Require Import base numbers list strings gmap.

Local Open Scope N_scope.
Local Open Scope nat_scope.

(** ** Python strings

    A Python [str] is a sequence of Unicode code points; [len] counts code
    points and slicing cuts between them. *)

Module PyStr.

Definition char : Type := N.
Definition str : Type := list char.

(** An ASCII string literal of the source, read character by character. *)
Definition lit (s : string) : str :=
  (fun a => N_of_ascii a) <$> list_ascii_of_string s.

Definition ch_underscore : char := 95%N.
Definition ch_dquote : char := 34%N.
Definition ch_newline : char := 10%N.
Definition ch_hyphen : char := 45%N.

(** [str.isspace] on one character, as CPython's
    [_PyUnicode_IsWhitespace] lists it. *)
Definition isspace (c : char) : bool :=
  ((9 <=? c) && (c <=? 13) || (28 <=? c) && (c <=? 32)
   || (c =? 133) || (c =? 160) || (c =? 5760)
   || (8192 <=? c) && (c <=? 8202)
   || (c =? 8232) || (c =? 8233) || (c =? 8239) || (c =? 8287)
   || (c =? 12288))%N.

(** [s.startswith(p)] *)
Fixpoint startswith (s p : str) : bool :=
  match p, s with
  | [], _ => true
  | _ :: _, [] => false
  | a :: p', b :: s' => (a =? b)%N && startswith s' p'
  end.

(** [s.endswith(p)]: the last [len(p)] characters of [s] are [p]. *)
Definition endswith (s p : str) : bool :=
  bool_decide (length p ≤ length s) &&
  bool_decide (drop (length s - length p) s = p).

(** [s.replace(old, new)] for one-character [old] and [new]. *)
Definition replace (old new : char) (s : str) : str :=
  (fun c => if (c =? old)%N then new else c) <$> s.

Fixpoint lstrip (s : str) : str :=
  match s with
  | [] => []
  | c :: s' => if isspace c then lstrip s' else s
  end.

Definition rstrip (s : str) : str := reverse (lstrip (reverse s)).

(** [s.strip()] with no argument. *)
Definition strip (s : str) : str := lstrip (rstrip s).

(** A string is clean at its head when it is empty or starts with a
    character that is not whitespace. *)
Definition head_ok (s : str) : Prop :=
  match s with [] => True | c :: _ => isspace c = false end.

End PyStr.

Import PyStr.

(** ** [YouTubeBot.sanitize_filename] *)

Definition invalid_chars : str := lit "<>:" ++ ch_dquote :: lit "/\|?*".

Definition sanitize_filename (filename : str) : str :=
  (* for char in invalid_chars: filename = filename.replace(char, '_') *)
  let filename :=
    foldl (fun fn char => replace char ch_underscore fn) filename invalid_chars in
  (* if len(filename) > 100: filename = filename[:100] *)
  let filename :=
    if bool_decide (100 < length filename) then take 100 filename else filename in
  strip filename.

(** What the replacement loop does to one character. *)
Definition scrub (cs : str) (c : char) : char :=
  if bool_decide (c ∈ cs) then ch_underscore else c.

(** ** Regular expressions

    The fragment of Python's [re] syntax that the URL patterns use:
    literals, character classes, concatenation, [?], [+], [*] and [.].
    [re.match] anchors at the start of the string and succeeds as soon as
    some prefix of it matches; only success or failure is observed by
    [is_youtube_url], and that is decided here by Brzozowski derivatives. *)

Module Re.

Inductive regex : Type :=
| Void
| Eps
| Chr (c : char)
| Cls (p : char -> bool)
| Cat (r1 r2 : regex)
| Alt (r1 r2 : regex)
| Star (r : regex).

(** [r?], [r+], [.] (any character but a newline) and a literal string. *)
Definition Opt (r : regex) : regex := Alt r Eps.
Definition Plus (r : regex) : regex := Cat r (Star r).
Definition Dot : regex := Cls (fun c => negb (c =? ch_newline)%N).

Fixpoint Str (s : str) : regex :=
  match s with
  | [] => Eps
  | c :: s' => Cat (Chr c) (Str s')
  end.

(** The strings a pattern matches in full. *)
Inductive Lang : regex -> str -> Prop :=
| Lang_eps : Lang Eps []
| Lang_chr c : Lang (Chr c) [c]
| Lang_cls p c : p c = true -> Lang (Cls p) [c]
| Lang_cat r1 r2 s1 s2 : Lang r1 s1 -> Lang r2 s2 -> Lang (Cat r1 r2) (s1 ++ s2)
| Lang_alt_l r1 r2 s : Lang r1 s -> Lang (Alt r1 r2) s
| Lang_alt_r r1 r2 s : Lang r2 s -> Lang (Alt r1 r2) s
| Lang_star_nil r : Lang (Star r) []
| Lang_star_more r s1 s2 :
    Lang r s1 -> Lang (Star r) s2 -> Lang (Star r) (s1 ++ s2).

(** Some prefix of [s] matches [r] and the rest of [s] satisfies [K]. *)
Definition Prefix (r : regex) (K : str -> Prop) (s : str) : Prop :=
  exists p t, s = p ++ t /\ Lang r p /\ K t.

Definition anything : str -> Prop := fun _ => True.

Fixpoint nullable (r : regex) : bool :=
  match r with
  | Void => false
  | Eps => true
  | Chr _ => false
  | Cls _ => false
  | Cat r1 r2 => nullable r1 && nullable r2
  | Alt r1 r2 => nullable r1 || nullable r2
  | Star _ => true
  end.

Fixpoint deriv (c : char) (r : regex) : regex :=
  match r with
  | Void => Void
  | Eps => Void
  | Chr d => if (c =? d)%N then Eps else Void
  | Cls p => if p c then Eps else Void
  | Cat r1 r2 =>
      if nullable r1
      then Alt (Cat (deriv c r1) r2) (deriv c r2)
      else Cat (deriv c r1) r2
  | Alt r1 r2 => Alt (deriv c r1) (deriv c r2)
  | Star r1 => Cat (deriv c r1) (Star r1)
  end.

(** [re.match(r, s) is not None] *)
Fixpoint re_match (r : regex) (s : str) : bool :=
  nullable r ||
  match s with
  | [] => false
  | c :: s' => re_match (deriv c r) s'
  end.

End Re.

Import Re.

(** ** [YouTubeBot.is_youtube_url] *)

Section url_classifier.

(** [str.isalnum] above code point 127 is a table of the Unicode
    character database shipped with the Python runtime, not with this
    repository: it is taken as a parameter. Below 128 it is the ASCII
    letters and digits. *)
Variable unicode_isalnum : char -> bool.

Definition isalnum (c : char) : bool :=
  if (c <? 128)%N
  then ((48 <=? c) && (c <=? 57) || (65 <=? c) && (c <=? 90)
        || (97 <=? c) && (c <=? 122))%N
  else unicode_isalnum c.

(** The class [\w] of a [str] pattern, and the class [[\w-]]. *)
Definition word_char (c : char) : bool := isalnum c || (c =? ch_underscore)%N.
Definition id_char (c : char) : bool := word_char c || (c =? ch_hyphen)%N.

(** A sequence of sub-patterns written side by side. *)
Fixpoint seq (rs : list regex) : regex :=
  match rs with
  | [] => Eps
  | r :: rs' => Cat r (seq rs')
  end.

(** [(?:https?://)?] *)
Definition re_scheme : regex :=
  Opt (seq [Str (lit "http"); Opt (Str (lit "s")); Str (lit "://")]).

Definition youtube_patterns : list regex :=
  [ (* (?:https?://)?(?:www\.)?youtube\.com/watch\?v=[\w-]+ *)
    seq [re_scheme; Opt (Str (lit "www.")); Str (lit "youtube.com/watch?v=");
         Plus (Cls id_char)];
    (* (?:https?://)?(?:www\.)?youtu\.be/[\w-]+ *)
    seq [re_scheme; Opt (Str (lit "www.")); Str (lit "youtu.be/");
         Plus (Cls id_char)];
    (* (?:https?://)?(?:m\.)?youtube\.com/watch\?v=[\w-]+ *)
    seq [re_scheme; Opt (Str (lit "m.")); Str (lit "youtube.com/watch?v=");
         Plus (Cls id_char)];
    (* (?:https?://)?(?:www\.)?youtube\.com/shorts/[\w-]+ *)
    seq [re_scheme; Opt (Str (lit "www.")); Str (lit "youtube.com/shorts/");
         Plus (Cls id_char)];
    (* (?:https?://)?(?:m\.)?youtube\.com/shorts/[\w-]+ *)
    seq [re_scheme; Opt (Str (lit "m.")); Str (lit "youtube.com/shorts/");
         Plus (Cls id_char)];
    (* (?:https?://)?(?:www\.)?youtube\.com/watch\?v=[\w-]+(&.* )?    (the group is optional) *)
    seq [re_scheme; Opt (Str (lit "www.")); Str (lit "youtube.com/watch?v=");
         Plus (Cls id_char); Opt (seq [Str (lit "&"); Star Dot])];
    (* (?:https?://)?(?:www\.)?youtube\.com/shorts/[\w-]+(\?.* )?   (the group is optional) *)
    seq [re_scheme; Opt (Str (lit "www.")); Str (lit "youtube.com/shorts/");
         Plus (Cls id_char); Opt (seq [Str (lit "?"); Star Dot])] ].

(** [any(re.match(pattern, url) for pattern in youtube_patterns)] *)
Definition is_youtube_url (url : str) : bool :=
  existsb (fun pattern => re_match pattern url) youtube_patterns.

(** *** The URL shapes of the specification

    A supported URL is an optional scheme, one of the known host-and-path
    stems (watch link, short-link domain, mobile subdomain, shorts path),
    and a video id of at least one character of [[\w-]]; whatever follows
    the first id character (more id, a query string) is not looked at. *)

Definition schemes : list str := [[]; lit "http://"; lit "https://"].

Definition known_stems : list str :=
  [ lit "youtube.com/watch?v="; lit "www.youtube.com/watch?v=";
    lit "m.youtube.com/watch?v=";
    lit "youtu.be/"; lit "www.youtu.be/";
    lit "youtube.com/shorts/"; lit "www.youtube.com/shorts/";
    lit "m.youtube.com/shorts/" ].

Definition supported_url (url : str) : Prop :=
  exists scheme stem c rest,
    scheme ∈ schemes /\ stem ∈ known_stems /\ id_char c = true /\
    url = scheme ++ stem ++ c :: rest.

(** The optional subdomain and the fixed part of each pattern, in the
    order of [youtube_patterns]. *)
Definition pattern_table : list (str * str) :=
  [ (lit "www.", lit "youtube.com/watch?v=");
    (lit "www.", lit "youtu.be/");
    (lit "m.", lit "youtube.com/watch?v=");
    (lit "www.", lit "youtube.com/shorts/");
    (lit "m.", lit "youtube.com/shorts/");
    (lit "www.", lit "youtube.com/watch?v=");
    (lit "www.", lit "youtube.com/shorts/") ].

Definition shaped (sub body : str) (url : str) : Prop :=
  exists scheme sb c rest,
    scheme ∈ schemes /\ sb ∈ [ []; sub ] /\ id_char c = true /\
    url = scheme ++ sb ++ body ++ c :: rest.

End url_classifier.

(** ** Python values, dictionaries and exceptions *)

(** The values the bot reads out of the engine's records: [None], an
    [int] (unbounded) or a [str]. Other values, a [float] for one, are
    outside this model. *)
Inductive value : Type :=
| VNone
| VInt (z : Z)
| VStr (s : str).

#[global] Instance value_eq_dec : EqDecision value.
Proof. solve_decision. Defined.

(** A [dict] with string keys; [d.get(k, v)] is [dict_get d k v]. *)
Abbreviation dict := (gmap string value).

Definition dict_get (d : dict) (k : string) (v : value) : value :=
  default v (d !! k).

(** An instance of [Exception], by the name of its class: what a clause
    [except Exception] catches. *)
Inductive exception : Type :=
| Exn (class : string).

Definition AttributeError : exception := Exn "AttributeError".
Definition TypeError : exception := Exn "TypeError".

(** What a call does: it returns a value or it raises. *)
Inductive outcome (A : Type) : Type :=
| Returned (a : A)
| Raised (e : exception).

Arguments Returned {A} a.
Arguments Raised {A} e.

Definition raised {A} (o : outcome A) : bool :=
  match o with Raised _ => true | Returned _ => false end.

(** [x < y] for a value [x] and an [int] [y]: a [TypeError] unless [x] is
    an [int] too. *)
Definition py_lt (x : value) (y : Z) : outcome bool :=
  match x with
  | VInt a => Returned (a <? y)%Z
  | VNone | VStr _ => Raised TypeError
  end.

(** Truth value of an [Optional[Dict]]: [None] and the empty dict are
    false. *)
Definition truthy_dict (o : option dict) : bool :=
  match o with
  | None => false
  | Some d => negb (bool_decide (d = ∅))
  end.

(** Truth value of an [Optional[str]]: [None] and the empty string are
    false. *)
Definition truthy_str (o : option str) : bool :=
  match o with
  | None | Some [] => false
  | Some (_ :: _) => true
  end.

(** [os.path.join(a, b)] on a POSIX host. *)
Definition path_join (a b : str) : str :=
  if startswith b (lit "/") then b
  else if bool_decide (a = []) || endswith a (lit "/") then a ++ b
  else a ++ lit "/" ++ b.

(** ** The engine's options

    The keys of the [ydl_opts] dictionaries that the bot sets; a flag
    that a dictionary leaves out is [false], as yt-dlp reads it. *)

Record postprocessor : Type := {
  pp_key : string;
  preferredcodec : string;
  preferredquality : string;
}.

Record ydl_opts : Type := {
  quiet : bool;
  no_warnings : bool;
  extract_flat : bool;
  nocheckcertificate : bool;
  prefer_insecure : bool;
  http_headers : list (string * string);
  format : option string;
  outtmpl : option str;
  postprocessors : list postprocessor;
}.

(** ** The conversation channel

    A text of the bot is kept by its kind and the values interpolated in
    it; the channel (Telegram) is outside the bot, and a call on it is
    recorded in the session's outbox. *)

Inductive message : Type :=
| MsgChecking            (* "Checking video information..." *)
| MsgResolutionFailure   (* "Error: Could not retrieve video information. ..." *)
| MsgBelowThreshold (title uploader likes : value) (required : Z)
                         (* "Sorry, this video doesn't meet the minimum
                            likes requirement. ..." *)
| MsgApproved (title uploader : value) (duration : str) (likes : value)
                         (* "Video approved for download! ..." *)
| MsgCancelled           (* "Download cancelled." *)
| MsgInfoNotFound        (* "Error: Video information not found.
                            Please try again." *)
| MsgDownloading (format_type : str) (title : value)
| MsgSending (format_type : str) (title : value)
| MsgSent (format_type : str) (title : value)
| MsgDownloadError (format_type : str)
                         (* "Error downloading ... Please try again later." *)
| MsgDownloadException (format_type : str) (e : exception)
                         (* "Error downloading ... Error: ..." *)
| MsgInvalidUrl.         (* "Please send me a valid YouTube URL. ..." *)

(** An inline keyboard: rows of buttons, each with its callback data. *)
Definition keyboard : Type := list (list str).

Inductive chat_action : Type :=
| ReplyText (m : message)
| EditText (m : message) (reply_markup : option keyboard)
| Answer
| ReplyVideo (file : str) (caption : value)
| ReplyAudio (file : str) (caption : value).

(** ** The host: extraction engine and file system

    Each operation acts on a world [W] and may raise. [H_extract_info]
    is [YoutubeDL(opts).extract_info(url, download=False)] (its result
    may be [None]), [H_download] is [YoutubeDL(opts).download([url])]. *)

Class Host (W : Type) : Type := {
  H_extract_info : ydl_opts -> str -> W -> outcome (option dict) * W;
  H_download : ydl_opts -> value -> W -> outcome unit * W;
  H_listdir : str -> W -> outcome (list str) * W;
  H_which : str -> W -> option str;
  H_exists : str -> W -> bool;
  H_open : str -> W -> outcome unit * W;
  H_mkdtemp : W -> outcome str * W;
  H_rmtree : str -> W -> outcome unit * W;
}.

(** A call on the host, with what came of it. *)
Inductive host_call : Type :=
| CallExtract (opts : ydl_opts) (url : str) (res : outcome (option dict))
| CallDownload (opts : ydl_opts) (url : value) (res : outcome unit)
| CallListdir (dir : str) (res : outcome (list str))
| CallOpen (file : str) (res : outcome unit)
| CallMkdtemp (res : outcome str)
| CallRmtree (dir : str) (res : outcome unit).

Definition call_raised (c : host_call) : bool :=
  match c with
  | CallExtract _ _ r => raised r
  | CallDownload _ _ r => raised r
  | CallListdir _ r => raised r
  | CallOpen _ r => raised r
  | CallMkdtemp r => raised r
  | CallRmtree _ r => raised r
  end.

(** ** Session state and the monad of the handlers

    One session: the world of the host, [context.user_data], what was
    sent on the channel, and the calls made on the host, oldest first. *)

Record session (W : Type) : Type := mkSession {
  world : W;
  user_data : gmap string dict;
  outbox : list chat_action;
  calls : list host_call;
}.

Arguments mkSession {W} _ _ _ _.
Arguments world {W} _.
Arguments user_data {W} _.
Arguments outbox {W} _.
Arguments calls {W} _.

(** A computation returns or raises, and leaves a session behind either
    way (what was done before an exception stays done). *)
Definition M (W A : Type) : Type := session W -> outcome A * session W.

Definition ret {W A} (a : A) : M W A := fun st => (Returned a, st).

Definition throw {W A} (e : exception) : M W A := fun st => (Raised e, st).

Definition bind {W A B} (m : M W A) (k : A -> M W B) : M W B :=
  fun st =>
    match m st with
    | (Returned a, st') => k a st'
    | (Raised e, st') => (Raised e, st')
    end.

(** [try: body / except Exception as e: handler(e)] *)
Definition try_except {W A} (body : M W A) (handler : exception -> M W A) : M W A :=
  fun st =>
    match body st with
    | (Returned a, st') => (Returned a, st')
    | (Raised e, st') => handler e st'
    end.

(** A pure step that may raise. *)
Definition lift {W A} (o : outcome A) : M W A := fun st => (o, st).

Declare Scope py_scope.
Delimit Scope py_scope with py.

Notation "x <- m ;; k" := (bind m (fun x => k))
  (at level 100, m at next level, right associativity) : py_scope.
Notation "m ;;; k" := (bind m (fun _ => k))
  (at level 100, right associativity) : py_scope.

(** ** The bot *)

Section bot.

Context {W : Type} {host : Host W}.

(** [self.likes_threshold], and the Unicode table of the classifier. *)
Variable likes_threshold : Z.
Variable unicode_isalnum : char -> bool.

Local Open Scope py_scope.

(** *** Primitive steps *)

Definition record_call (c : host_call) (w : W) (st : session W) : session W :=
  mkSession w (user_data st) (outbox st) (calls st ++ [c]).

Definition extract_info (opts : ydl_opts) (url : str) : M W (option dict) :=
  fun st =>
    let '(r, w) := H_extract_info opts url (world st) in
    (r, record_call (CallExtract opts url r) w st).

Definition download (opts : ydl_opts) (url : value) : M W unit :=
  fun st =>
    let '(r, w) := H_download opts url (world st) in
    (r, record_call (CallDownload opts url r) w st).

Definition listdir (dir : str) : M W (list str) :=
  fun st =>
    let '(r, w) := H_listdir dir (world st) in
    (r, record_call (CallListdir dir r) w st).

Definition open_file (file : str) : M W unit :=
  fun st =>
    let '(r, w) := H_open file (world st) in
    (r, record_call (CallOpen file r) w st).

Definition mkdtemp : M W str :=
  fun st =>
    let '(r, w) := H_mkdtemp (world st) in
    (r, record_call (CallMkdtemp r) w st).

Definition rmtree (dir : str) : M W unit :=
  fun st =>
    let '(r, w) := H_rmtree dir (world st) in
    (r, record_call (CallRmtree dir r) w st).

Definition which (name : str) : M W (option str) :=
  fun st => (Returned (H_which name (world st)), st).

Definition path_exists (file : str) : M W bool :=
  fun st => (Returned (H_exists file (world st)), st).

(** A request to Telegram that is delivered. The requests that may fail
    are those of section [bot_on_channel] below. *)
Definition send (a : chat_action) : M W unit :=
  fun st =>
    (Returned tt,
     mkSession (world st) (user_data st) (outbox st ++ [a]) (calls st)).

(** [context.user_data.get(k)] and [context.user_data[k] = d] *)
Definition get_user_data (k : string) : M W (option dict) :=
  fun st => (Returned (user_data st !! k), st).

Definition set_user_data (k : string) (d : dict) : M W unit :=
  fun st =>
    (Returned tt,
     mkSession (world st) (<[k := d]> (user_data st)) (outbox st) (calls st)).

(** *** [format_duration] *)

(** [str(n)] for [n >= 0], and the format [{n:02d}]. *)
Definition decimal (n : N) : str := lit (NilEmpty.string_of_uint (N.to_uint n)).

Definition format_02d (n : Z) : str :=
  let digits := decimal (Z.abs_N n) in
  let sign := if (n <? 0)%Z then lit "-" else [] in
  sign ++ replicate (2 - length sign - length digits) 48%N ++ digits.

Definition format_duration (seconds : value) : outcome str :=
  match seconds with
  | VInt seconds =>
      if (seconds =? 0)%Z then Returned (lit "Unknown")
      else
        let minutes := (seconds / 60)%Z in
        let seconds := (seconds mod 60)%Z in
        let hours := (minutes / 60)%Z in
        let minutes := (minutes mod 60)%Z in
        if (0 <? hours)%Z
        then Returned (format_02d hours ++ lit ":" ++ format_02d minutes
                       ++ lit ":" ++ format_02d seconds)
        else Returned (format_02d minutes ++ lit ":" ++ format_02d seconds)
  | VNone | VStr _ =>
      (* [seconds == 0] is false, then [divmod] raises *)
      Raised TypeError
  end.

(** *** [get_video_info] *)

Definition user_agent : string :=
  "Mozilla/5.0 (Windows NT 10.0; Win64; x64) AppleWebKit/537.36 (KHTML, like Gecko) Chrome/91.0.4472.124 Safari/537.36".

Definition ydl_opts_list : list ydl_opts :=
  [ (* Strategy 1: default options *)
    {| quiet := true; no_warnings := true; extract_flat := false;
       nocheckcertificate := false; prefer_insecure := false;
       http_headers := []; format := None; outtmpl := None;
       postprocessors := [] |};
    (* Strategy 2: no certificate check *)
    {| quiet := true; no_warnings := true; extract_flat := false;
       nocheckcertificate := true; prefer_insecure := false;
       http_headers := []; format := None; outtmpl := None;
       postprocessors := [] |};
    (* Strategy 3: custom headers and no certificate check *)
    {| quiet := true; no_warnings := true; extract_flat := false;
       nocheckcertificate := true; prefer_insecure := false;
       http_headers := [("User-Agent", user_agent)];
       format := None; outtmpl := None; postprocessors := [] |};
    (* Strategy 4: no certificate check, insecure transport preferred *)
    {| quiet := true; no_warnings := true; extract_flat := false;
       nocheckcertificate := true; prefer_insecure := true;
       http_headers := []; format := None; outtmpl := None;
       postprocessors := [] |} ].

(** The dictionary that [get_video_info] returns for the record [info]. *)
Definition video_info_of (info : dict) (url : str) : dict :=
  list_to_map
    [ ("title", dict_get info "title" (VStr (lit "Unknown")));
      ("uploader", dict_get info "uploader" (VStr (lit "Unknown")));
      ("duration", dict_get info "duration" (VInt 0));
      ("like_count", dict_get info "like_count" (VInt 0));
      ("view_count", dict_get info "view_count" (VInt 0));
      ("url", VStr url);
      ("id", dict_get info "id" (VStr []));
      ("thumbnail", dict_get info "thumbnail" (VStr [])) ].

(** [info.get] on what [extract_info] returned: [None] has no [get]. *)
Definition normalize (info : option dict) (url : str) : outcome dict :=
  match info with
  | None => Raised AttributeError
  | Some info => Returned (video_info_of info url)
  end.

(** One turn of the loop: [Some d] when the function returns [d], [None]
    when the turn ends in [continue]. *)
Definition try_strategy (url : str) (opts : ydl_opts) : M W (option dict) :=
  try_except
    (info <- extract_info opts url ;;
     d <- lift (normalize info url) ;;
     ret (Some d))
    (fun _ => ret None).

Fixpoint try_strategies (url : str) (strategies : list ydl_opts)
  : M W (option dict) :=
  match strategies with
  | [] => ret None
  | opts :: rest =>
      r <- try_strategy url opts ;;
      match r with
      | Some d => ret (Some d)
      | None => try_strategies url rest
      end
  end.

Definition get_video_info (url : str) : M W (option dict) :=
  try_except (try_strategies url ydl_opts_list) (fun _ => ret None).

(** *** [process_youtube_url] *)

Definition format_keyboard : keyboard :=
  [ [lit "download_mp4"; lit "download_mp3"]; [lit "cancel"] ].

(** The body of [process_youtube_url] from the comment
    [# Check likes threshold] on, for a resolved [video_info]. *)
Definition check_likes (video_info : dict) : M W unit :=
  let likes := dict_get video_info "like_count" (VInt 0) in
  let title := dict_get video_info "title" (VStr (lit "Unknown")) in
  let uploader := dict_get video_info "uploader" (VStr (lit "Unknown")) in
  duration <- lift (format_duration (dict_get video_info "duration" (VInt 0))) ;;
  below <- lift (py_lt likes likes_threshold) ;;
  if (below : bool) then
    send (EditText (MsgBelowThreshold title uploader likes likes_threshold) None)
  else
    set_user_data "video_info" video_info ;;;
    send (EditText (MsgApproved title uploader duration likes)
            (Some format_keyboard)).

Definition process_youtube_url (url : str) : M W unit :=
  send (ReplyText MsgChecking) ;;;
  video_info <- get_video_info url ;;
  match video_info with
  | Some d =>
      if truthy_dict video_info then check_likes d
      else send (EditText MsgResolutionFailure None)
  | None => send (EditText MsgResolutionFailure None)
  end.

(** [handle_message] *)
Definition handle_message (message_text : str) : M W unit :=
  if is_youtube_url unicode_isalnum message_text
  then process_youtube_url message_text
  else send (ReplyText MsgInvalidUrl).

(** *** Output discovery

    The loops that look for the downloaded file in the listing of the
    scratch directory. A loop gives [Some r] when it returns [r] from the
    method and [None] when it runs to its end. *)

Definition audio_extensions : list str :=
  [lit ".mp3"; lit ".m4a"; lit ".webm"; lit ".ogg"; lit ".aac"; lit ".opus"].

(** [download_video]: [for file in os.listdir(output_dir)] *)
Fixpoint scan_video (safe_title output_dir : str) (files : list str)
  : option (bool * option str) :=
  match files with
  | [] => None
  | file :: files' =>
      if startswith file safe_title
      then Some (true, Some (path_join output_dir file))
      else scan_video safe_title output_dir files'
  end.

Definition find_video_file (safe_title output_dir : str) (files : list str)
  : bool * option str :=
  match scan_video safe_title output_dir files with
  | Some r => r
  | None => (false, None)
  end.

(** [download_audio], first loop: the expected extension. *)
Fixpoint scan_expected (safe_title output_dir expected_extension : str)
    (files_found : list str) : option (bool * option str) :=
  match files_found with
  | [] => None
  | file :: files' =>
      if startswith file safe_title && endswith file expected_extension
      then Some (true, Some (path_join output_dir file))
      else scan_expected safe_title output_dir expected_extension files'
  end.

(** The inner loop [for ext in audio_extensions]. *)
Fixpoint scan_exts (output_dir file : str) (exts : list str)
  : option (bool * option str) :=
  match exts with
  | [] => None
  | ext :: exts' =>
      if endswith file ext
      then Some (true, Some (path_join output_dir file))
      else scan_exts output_dir file exts'
  end.

(** Second loop: the title and any audio extension. *)
Fixpoint scan_titled (safe_title output_dir : str) (files_found : list str)
  : option (bool * option str) :=
  match files_found with
  | [] => None
  | file :: files' =>
      match
        (if startswith file safe_title
         then scan_exts output_dir file audio_extensions
         else None)
      with
      | Some r => Some r
      | None => scan_titled safe_title output_dir files'
      end
  end.

(** Third loop: any audio extension. *)
Fixpoint scan_any (output_dir : str) (files_found : list str)
  : option (bool * option str) :=
  match files_found with
  | [] => None
  | file :: files' =>
      match scan_exts output_dir file audio_extensions with
      | Some r => Some r
      | None => scan_any output_dir files'
      end
  end.

Definition find_audio_file (expected_extension : option str)
    (safe_title output_dir : str) (files_found : list str)
  : bool * option str :=
  match
    (if truthy_str expected_extension
     then scan_expected safe_title output_dir
            (default [] expected_extension) files_found
     else None)
  with
  | Some r => r
  | None =>
      match scan_titled safe_title output_dir files_found with
      | Some r => r
      | None =>
          match scan_any output_dir files_found with
          | Some r => r
          | None => (false, None)
          end
      end
  end.

(** *** [download_video] and [download_audio] *)

(** [self.sanitize_filename(title)]: only a [str] has [replace]. *)
Definition sanitize_title (title : value) : outcome str :=
  match title with
  | VStr s => Returned (sanitize_filename s)
  | VNone | VInt _ => Raised AttributeError
  end.

Definition video_opts (output_path : str) : ydl_opts :=
  {| quiet := true; no_warnings := true; extract_flat := false;
     nocheckcertificate := true; prefer_insecure := false;
     http_headers := []; format := Some "best[ext=mp4]/mp4/best";
     outtmpl := Some output_path; postprocessors := [] |}.

Definition audio_opts_mp3 (output_path : str) : ydl_opts :=
  {| quiet := false; no_warnings := false; extract_flat := false;
     nocheckcertificate := true; prefer_insecure := false;
     http_headers := []; format := Some "bestaudio/best";
     outtmpl := Some output_path;
     postprocessors :=
       [ {| pp_key := "FFmpegExtractAudio"; preferredcodec := "mp3";
            preferredquality := "192" |} ] |}.

Definition audio_opts_native (output_path : str) : ydl_opts :=
  {| quiet := false; no_warnings := false; extract_flat := false;
     nocheckcertificate := true; prefer_insecure := false;
     http_headers := [];
     format := Some "bestaudio[ext=m4a]/bestaudio[ext=webm]/bestaudio/best";
     outtmpl := Some output_path; postprocessors := [] |}.

Definition download_video (url : value) (output_dir : str) (title : value)
  : M W (bool * option str) :=
  try_except
    (safe_title <- lift (sanitize_title title) ;;
     let output_path := path_join output_dir (safe_title ++ lit ".%(ext)s") in
     download (video_opts output_path) url ;;;
     files <- listdir output_dir ;;
     ret (find_video_file safe_title output_dir files))
    (fun _ => ret (false, None)).

Definition download_audio (url : value) (output_dir : str) (title : value)
  : M W (bool * option str) :=
  try_except
    (safe_title <- lift (sanitize_title title) ;;
     let output_path := path_join output_dir (safe_title ++ lit ".%(ext)s") in
     ffmpeg_path <- which (lit "ffmpeg") ;;
     let opts_ext :=
       if truthy_str ffmpeg_path
       then (audio_opts_mp3 output_path, Some (lit ".mp3"))
       else (audio_opts_native output_path, None) in
     download (fst opts_ext) url ;;;
     files_found <- listdir output_dir ;;
     ret (find_audio_file (snd opts_ext) safe_title output_dir files_found))
    (fun _ => ret (false, None)).

(** *** [download_and_send] *)

(** [with tempfile.TemporaryDirectory() as temp_dir: body]: the directory
    is removed on every way out of the body. *)
Definition with_temporary_directory {A} (body : str -> M W A) : M W A :=
  temp_dir <- mkdtemp ;;
  fun st =>
    let '(r, st1) := body temp_dir st in
    match rmtree temp_dir st1 with
    | (Returned _, st2) => (r, st2)
    | (Raised e, st2) => (Raised e, st2)
    end.

Definition download_and_send (video_info : dict) (format_type : str)
  : M W unit :=
  let title := dict_get video_info "title" (VStr (lit "Unknown")) in
  let url := dict_get video_info "url" (VStr []) in
  send (EditText (MsgDownloading format_type title) None) ;;;
  try_except
    (with_temporary_directory (fun temp_dir =>
       r <- (if bool_decide (format_type = lit "mp4")
             then download_video url temp_dir title
             else download_audio url temp_dir title) ;;
       let success := fst r in
       let file_path := snd r in
       found <- (if success && truthy_str file_path
                 then path_exists (default [] file_path)
                 else ret false) ;;
       if (found : bool) then
         send (EditText (MsgSending format_type title) None) ;;;
         open_file (default [] file_path) ;;;
         (if bool_decide (format_type = lit "mp4")
          then send (ReplyVideo (default [] file_path) title)
          else send (ReplyAudio (default [] file_path) title)) ;;;
         send (EditText (MsgSent format_type title) None)
       else
         send (EditText (MsgDownloadError format_type) None)))
    (fun e => send (EditText (MsgDownloadException format_type e) None)).

(** *** [handle_callback] *)

Definition handle_callback (data : str) : M W unit :=
  send Answer ;;;
  if bool_decide (data = lit "cancel") then
    send (EditText MsgCancelled None)
  else
    video_info <- get_user_data "video_info" ;;
    match video_info with
    | Some d =>
        if truthy_dict video_info then
          if bool_decide (data = lit "download_mp4")
          then download_and_send d (lit "mp4")
          else if bool_decide (data = lit "download_mp3")
          then download_and_send d (lit "mp3")
          else ret tt
        else send (EditText MsgInfoNotFound None)
    | None => send (EditText MsgInfoNotFound None)
    end.

End bot.

(** ** Specification-side definitions *)

(** The [VideoMetadata] record of the data model, and the dictionary that
    stands for it in the code. *)
Record VideoMetadata : Type := {
  vm_id : str;
  vm_title : str;
  vm_uploader : str;
  durationSeconds : Z;
  likeCount : Z;
  viewCount : Z;
  sourceUrl : str;
  thumbnailUrl : str;
}.

Definition to_dict (m : VideoMetadata) : dict :=
  list_to_map
    [ ("title", VStr (vm_title m));
      ("uploader", VStr (vm_uploader m));
      ("duration", VInt (durationSeconds m));
      ("like_count", VInt (likeCount m));
      ("view_count", VInt (viewCount m));
      ("url", VStr (sourceUrl m));
      ("id", VStr (vm_id m));
      ("thumbnail", VStr (thumbnailUrl m)) ].

(** The keys of a resolved record. *)
Definition video_info_keys : list string :=
  ["title"; "uploader"; "duration"; "like_count"; "view_count"; "url";
   "id"; "thumbnail"].

(** An extraction attempt fails when the engine raises or hands back no
    record. *)
Definition attempt_failed (r : outcome (option dict)) : bool :=
  match r with
  | Returned (Some _) => false
  | Returned None | Raised _ => true
  end.

(** The attempts made for [url] with the first configurations of
    [strategies], one per result. *)
Definition attempts (url : str) (strategies : list ydl_opts)
    (results : list (outcome (option dict))) : list host_call :=
  zip_with (fun opts r => CallExtract opts url r) strategies results.

(** Output discovery by priority: the first entry of the listing that
    passes the first tier that any entry passes. *)
Fixpoint first_match (tiers : list (str -> bool)) (files : list str)
  : option str :=
  match tiers with
  | [] => None
  | tier :: tiers' =>
      match find tier files with
      | Some f => Some f
      | None => first_match tiers' files
      end
  end.

Definition discovered (output_dir : str) (o : option str) : bool * option str :=
  match o with
  | Some f => (true, Some (path_join output_dir f))
  | None => (false, None)
  end.

Definition titled (safe_title : str) (f : str) : bool := startswith f safe_title.
Definition has_audio_ext (f : str) : bool := existsb (endswith f) audio_extensions.

(** The tiers of [download_audio], with and without the transcoder. *)
Definition audio_tiers (transcoding : bool) (safe_title : str)
  : list (str -> bool) :=
  (if transcoding
   then [fun f => titled safe_title f && endswith f (lit ".mp3")]
   else [])
  ++ [ (fun f => titled safe_title f && has_audio_ext f); has_audio_ext ].

(** The kind of a download request, the method that serves it, the
    options it hands to the engine and its tiers of discovery. *)
Inductive kind : Type := Video | Audio.

Definition download_of_kind {W : Type} {host : Host W} (k : kind)
  : value -> str -> value -> M W (bool * option str) :=
  match k with
  | Video => download_video
  | Audio => download_audio
  end.

Definition opts_of_kind (k : kind) (transcoding : bool) (output_path : str)
  : ydl_opts :=
  match k with
  | Video => video_opts output_path
  | Audio =>
      if transcoding then audio_opts_mp3 output_path
      else audio_opts_native output_path
  end.

Definition tiers_of_kind (k : kind) (transcoding : bool) (safe_title : str)
  : list (str -> bool) :=
  match k with
  | Video => [titled safe_title]
  | Audio => audio_tiers transcoding safe_title
  end.

(** What a download does after the engine was called with [opts]:
    [found] is the discovery applied to the listing. *)
Definition after_download {W : Type} {host : Host W}
    (opts : ydl_opts) (url : value) (output_dir : str)
    (found : list str -> bool * option str) (st : session W)
  : outcome (bool * option str) * session W :=
  let '(r1, w1) := H_download opts url (world st) in
  let st1 := record_call (CallDownload opts url r1) w1 st in
  match r1 with
  | Raised _ => (Returned (false, None), st1)
  | Returned _ =>
      let '(r2, w2) := H_listdir output_dir w1 in
      let st2 := record_call (CallListdir output_dir r2) w2 st1 in
      match r2 with
      | Raised _ => (Returned (false, None), st2)
      | Returned files => (Returned (found files), st2)
      end
  end.

(** A computation that leaves [context.user_data] as it found it. *)
Definition keeps_user_data {W A} (m : M W A) : Prop :=
  forall st, user_data (m st).2 = user_data st.

(** ** A scripted host

    A host whose engine, listing and transcoder are fixed in advance: the
    worlds of the examples. *)

Record script : Type := {
  sc_extract : ydl_opts -> outcome (option dict);
  sc_download : outcome unit;
  sc_files : list str;
  sc_ffmpeg : option str;
}.

Definition scripted (sc : script) : Host unit := {|
  H_extract_info opts url w := (sc_extract sc opts, w);
  H_download opts url w := (sc_download sc, w);
  H_listdir dir w := (Returned (sc_files sc), w);
  H_which name w := sc_ffmpeg sc;
  H_exists file w := true;
  H_open file w := (Returned tt, w);
  H_mkdtemp w := (Returned (lit "/tmp/tmpdl"), w);
  H_rmtree dir w := (Returned tt, w);
|}.

Definition idle : session unit := mkSession tt ∅ [] [].

(** An engine on which only the configuration with custom headers works,
    and the record it hands back: no uploader, likes or duration. *)
Definition raw_record : dict :=
  list_to_map [("title", VStr (lit "My Title")); ("id", VStr (lit "abc123"))].

Definition only_third : script := {|
  sc_extract opts :=
    match http_headers opts with
    | [] => Raised (Exn "DownloadError")
    | _ :: _ => Returned (Some raw_record)
    end;
  sc_download := Returned tt;
  sc_files := [lit "My Title.txt"; lit "My Title.mp4"];
  sc_ffmpeg := None;
|}.

(** A host without transcoder whose scratch directory holds one file. *)
Definition webm_only : script := {|
  sc_extract opts := Raised (Exn "DownloadError");
  sc_download := Returned tt;
  sc_files := [lit "My_Title.webm"];
  sc_ffmpeg := None;
|}.

(** A host with the transcoder whose scratch directory holds the
    original stream and the transcoded file. *)
Definition transcoded : script := {|
  sc_extract opts := Raised (Exn "DownloadError");
  sc_download := Returned tt;
  sc_files := [lit "My_Title.webm"; lit "My_Title.mp3"];
  sc_ffmpeg := Some (lit "/usr/bin/ffmpeg");
|}.

(** A scratch directory that holds, in this order, a foreign audio file,
    the original stream and the transcoded file, on a host with the
    transcoder and on one without. *)
Definition three_files : list str :=
  [lit "Other.ogg"; lit "My_Title.webm"; lit "My_Title.mp3"].

Definition three_tiers : script := {|
  sc_extract opts := Raised (Exn "DownloadError");
  sc_download := Returned tt;
  sc_files := three_files;
  sc_ffmpeg := Some (lit "/usr/bin/ffmpeg");
|}.

Definition three_tiers_plain : script := {|
  sc_extract opts := Raised (Exn "DownloadError");
  sc_download := Returned tt;
  sc_files := three_files;
  sc_ffmpeg := None;
|}.

Definition sample_metadata : VideoMetadata := {|
  vm_id := lit "abc123";
  vm_title := lit "My Title";
  vm_uploader := lit "Someone";
  durationSeconds := 75;
  likeCount := 10;
  viewCount := 1000;
  sourceUrl := lit "https://youtu.be/abc123";
  thumbnailUrl := [];
|}.

(** A session in which a record is pending. *)
Definition awaiting_choice : session unit :=
  mkSession tt {[ "video_info" := to_dict sample_metadata ]} [] [].

(** ** Further specification-side definitions *)

(** The two decimal digits of a number from 0 to 99. *)
Definition two_digits (n : Z) : str :=
  [(48 + Z.to_N (n / 10))%N; (48 + Z.to_N (n mod 10))%N].

(** Reading a string of decimal digits back, leading zeros allowed. *)
Definition digit_of (c : char) : option (Decimal.uint -> Decimal.uint) :=
  if (c =? 48)%N then Some Decimal.D0
  else if (c =? 49)%N then Some Decimal.D1
  else if (c =? 50)%N then Some Decimal.D2
  else if (c =? 51)%N then Some Decimal.D3
  else if (c =? 52)%N then Some Decimal.D4
  else if (c =? 53)%N then Some Decimal.D5
  else if (c =? 54)%N then Some Decimal.D6
  else if (c =? 55)%N then Some Decimal.D7
  else if (c =? 56)%N then Some Decimal.D8
  else if (c =? 57)%N then Some Decimal.D9
  else None.

Fixpoint undigits (s : str) : option Decimal.uint :=
  match s with
  | [] => Some Decimal.Nil
  | c :: s' =>
      match digit_of c, undigits s' with
      | Some d, Some u => Some (d u)
      | _, _ => None
      end
  end.

Definition read_decimal (s : str) : option N := N.of_uint <$> undigits s.

(** A value that is an [int]. *)
Definition is_int (v : value) : bool :=
  match v with
  | VInt _ => true
  | VNone | VStr _ => false
  end.


(** An engine whose every configuration hands back a full record. *)
Definition full_record : dict :=
  list_to_map
    [ ("title", VStr (lit "My Title")); ("uploader", VStr (lit "Someone"));
      ("duration", VInt 75); ("like_count", VInt 25);
      ("view_count", VInt 1000); ("id", VStr (lit "abc123")) ].

(** A record of a video whose likes are hidden. *)
Definition hidden_likes : dict := <["like_count" := VNone]> full_record.


(** The calls that one download makes on the host for the scratch
    directory [dir]: none when the title is no [str], the engine alone
    when it raises, the engine and the listing otherwise. The output
    template always lies in [dir]. *)
Definition template_in (dir : str) (opts : ydl_opts) : Prop :=
  exists safe_title,
    outtmpl opts = Some (path_join dir (safe_title ++ lit ".%(ext)s")).

Inductive download_calls (dir : str) (url : value) : list host_call -> Prop :=
| dl_no_title : download_calls dir url []
| dl_engine_raised opts e :
    template_in dir opts ->
    download_calls dir url [CallDownload opts url (Raised e)]
| dl_listed opts r :
    template_in dir opts ->
    download_calls dir url
      [CallDownload opts url (Returned tt); CallListdir dir r].

(** The message that a failed clean-up adds. *)
Definition cleanup_error (format_type : str) (r : outcome unit)
  : list chat_action :=
  match r with
  | Returned _ => []
  | Raised e => [EditText (MsgDownloadException format_type e) None]
  end.

(** The exception that leaves the [with] block when the body raised [e]
    and the clean-up ended in [r]. *)
Definition leaving (e : exception) (r : outcome unit) : exception :=
  match r with
  | Returned _ => e
  | Raised e' => e'
  end.

Definition reply (format_type : str) (file : str) (title : value) : chat_action :=
  if bool_decide (format_type = lit "mp4")
  then ReplyVideo file title
  else ReplyAudio file title.

(** The runs of [download_and_send]: what is sent after the
    "downloading" message, and the calls made on the host. *)
Inductive send_run (format_type : str) (title url : value)
  : list chat_action -> list host_call -> Prop :=
| run_no_directory e :
    send_run format_type title url
      [EditText (MsgDownloadException format_type e) None]
      [CallMkdtemp (Raised e)]
| run_not_found dir dl r :
    download_calls dir url dl ->
    send_run format_type title url
      (EditText (MsgDownloadError format_type) None
       :: cleanup_error format_type r)
      (CallMkdtemp (Returned dir) :: dl ++ [CallRmtree dir r])
| run_open_failed dir dl file e r :
    download_calls dir url dl ->
    send_run format_type title url
      [EditText (MsgSending format_type title) None;
       EditText (MsgDownloadException format_type (leaving e r)) None]
      (CallMkdtemp (Returned dir)
       :: dl ++ [CallOpen file (Raised e); CallRmtree dir r])
| run_delivered dir dl file r :
    download_calls dir url dl ->
    send_run format_type title url
      (EditText (MsgSending format_type title) None
       :: reply format_type file title
       :: EditText (MsgSent format_type title) None
       :: cleanup_error format_type r)
      (CallMkdtemp (Returned dir)
       :: dl ++ [CallOpen file (Returned tt); CallRmtree dir r]).

(** A message that closes a download: sent, or one of the two errors. *)
Definition closing (a : chat_action) : bool :=
  match a with
  | EditText (MsgSent _ _) None
  | EditText (MsgDownloadError _) None
  | EditText (MsgDownloadException _ _) None => true
  | _ => false
  end.

(** A call that [download_and_send] may make between creating and
    removing the scratch directory [dir]. *)
Definition scratch_call (dir : str) (url : value) (c : host_call) : Prop :=
  match c with
  | CallDownload opts u _ => u = url /\ template_in dir opts
  | CallListdir d _ => d = dir
  | CallOpen _ _ => True
  | CallExtract _ _ _ | CallMkdtemp _ | CallRmtree _ _ => False
  end.

(** The answers of the engine itself to the configurations of
    [strategies], asked in their order on the world [w], up to and
    including the first answer that is a record, and the world after
    them. *)
Fixpoint engine_answers {W : Type} {host : Host W}
    (url : str) (strategies : list ydl_opts) (w : W)
  : list (outcome (option dict)) * W :=
  match strategies with
  | [] => ([], w)
  | opts :: rest =>
      let '(r, w1) := H_extract_info opts url w in
      if attempt_failed r
      then let '(rs, w2) := engine_answers url rest w1 in (r :: rs, w2)
      else ([r], w1)
  end.

(** ** The handlers on a channel that may fail

    [query.answer()], [query.edit_message_text(...)], [reply_video] and
    [reply_audio] are requests to Telegram, and a request may raise (a
    [telegram.error.NetworkError], say). Here the channel is part of the
    world: a request is answered by [C_request], and it reaches the
    outbox only when it was delivered. [send] above is the request on the
    channel that delivers everything. *)

Class Channel (W : Type) : Type := {
  C_request : chat_action -> W -> outcome unit * W;
}.

Section bot_on_channel.

Context {W : Type} {host : Host W} {channel : Channel W}.

Variable likes_threshold : Z.

Local Open Scope py_scope.

Definition request (a : chat_action) : M W unit :=
  fun st =>
    let '(r, w) := C_request a (world st) in
    (r, mkSession w (user_data st)
          (if raised r then outbox st else outbox st ++ [a]) (calls st)).

(** [process_youtube_url], from [# Check likes threshold] on *)
Definition check_likes_on (video_info : dict) : M W unit :=
  let likes := dict_get video_info "like_count" (VInt 0) in
  let title := dict_get video_info "title" (VStr (lit "Unknown")) in
  let uploader := dict_get video_info "uploader" (VStr (lit "Unknown")) in
  duration <- lift (format_duration (dict_get video_info "duration" (VInt 0))) ;;
  below <- lift (py_lt likes likes_threshold) ;;
  if (below : bool) then
    request (EditText (MsgBelowThreshold title uploader likes likes_threshold)
               None)
  else
    set_user_data "video_info" video_info ;;;
    request (EditText (MsgApproved title uploader duration likes)
               (Some format_keyboard)).

(** [process_youtube_url] *)
Definition process_youtube_url_on (url : str) : M W unit :=
  request (ReplyText MsgChecking) ;;;
  video_info <- get_video_info url ;;
  match video_info with
  | Some d =>
      if truthy_dict video_info then check_likes_on d
      else request (EditText MsgResolutionFailure None)
  | None => request (EditText MsgResolutionFailure None)
  end.

(** [download_and_send] *)
Definition download_and_send_on (video_info : dict) (format_type : str)
  : M W unit :=
  let title := dict_get video_info "title" (VStr (lit "Unknown")) in
  let url := dict_get video_info "url" (VStr []) in
  request (EditText (MsgDownloading format_type title) None) ;;;
  try_except
    (with_temporary_directory (fun temp_dir =>
       r <- (if bool_decide (format_type = lit "mp4")
             then download_video url temp_dir title
             else download_audio url temp_dir title) ;;
       let success := fst r in
       let file_path := snd r in
       found <- (if success && truthy_str file_path
                 then path_exists (default [] file_path)
                 else ret false) ;;
       if (found : bool) then
         request (EditText (MsgSending format_type title) None) ;;;
         open_file (default [] file_path) ;;;
         (if bool_decide (format_type = lit "mp4")
          then request (ReplyVideo (default [] file_path) title)
          else request (ReplyAudio (default [] file_path) title)) ;;;
         request (EditText (MsgSent format_type title) None)
       else
         request (EditText (MsgDownloadError format_type) None)))
    (fun e => request (EditText (MsgDownloadException format_type e) None)).

(** [handle_callback] *)
Definition handle_callback_on (data : str) : M W unit :=
  request Answer ;;;
  if bool_decide (data = lit "cancel") then
    request (EditText MsgCancelled None)
  else
    video_info <- get_user_data "video_info" ;;
    match video_info with
    | Some d =>
        if truthy_dict video_info then
          if bool_decide (data = lit "download_mp4")
          then download_and_send_on d (lit "mp4")
          else if bool_decide (data = lit "download_mp3")
          then download_and_send_on d (lit "mp3")
          else ret tt
        else request (EditText MsgInfoNotFound None)
    | None => request (EditText MsgInfoNotFound None)
    end.

End bot_on_channel.

(** The channel that delivers every request, the one that is down, and
    the one that takes the answer to the query and fails after it. *)
Definition delivering (W : Type) : Channel W := {|
  C_request a w := (Returned tt, w);
|}.

Definition NetworkError : exception := Exn "NetworkError".

Definition offline : Channel unit := {|
  C_request a w := (Raised NetworkError, w);
|}.

Definition answer_only : Channel unit := {|
  C_request a w :=
    (match a with
     | Answer => Returned tt
     | _ => Raised NetworkError
     end, w);
|}.

(** * Theorems *)

(** ** Strings *)

Section strip_facts.

Lemma lstrip_head_ok s : head_ok (lstrip s).
Proof.
  induction s as [|c s IH]; simpl; [done|].
  destruct (isspace c) eqn:E; [exact IH | exact E].
Qed.

Lemma lstrip_fix s : head_ok s -> lstrip s = s.
Proof. destruct s as [|c s]; simpl; [done|]. by intros ->. Qed.

Lemma lstrip_split s :
  exists ws, s = ws ++ lstrip s /\ Forall (fun c => isspace c = true) ws.
Proof.
  induction s as [|c s (ws & Hs & Hws)]; simpl.
  - by exists [].
  - destruct (isspace c) eqn:E.
    + exists (c :: ws). split; [by rewrite Hs at 1 | by constructor].
    + by exists [].
Qed.

Lemma lstrip_keeps_last s : head_ok (reverse s) -> head_ok (reverse (lstrip s)).
Proof.
  destruct (lstrip_split s) as (ws & Hs & _).
  destruct (lstrip s) as [|c t] eqn:E using rev_ind; [done|].
  rewrite Hs, app_assoc, !reverse_snoc. done.
Qed.

Lemma rstrip_last_ok s : head_ok (reverse (rstrip s)).
Proof. unfold rstrip. rewrite reverse_involutive. apply lstrip_head_ok. Qed.

Lemma rstrip_fix s : head_ok (reverse s) -> rstrip s = s.
Proof.
  intros H. unfold rstrip. by rewrite (lstrip_fix _ H), reverse_involutive.
Qed.

Lemma strip_strip s : strip (strip s) = strip s.
Proof.
  unfold strip at 1.
  rewrite rstrip_fix.
  - apply lstrip_fix, lstrip_head_ok.
  - apply lstrip_keeps_last, rstrip_last_ok.
Qed.

Lemma lstrip_sublist s : lstrip s `sublist_of` s.
Proof.
  destruct (lstrip_split s) as (ws & Hs & _).
  rewrite Hs at 2. apply sublist_inserts_l. done.
Qed.

Lemma rstrip_split s : exists ws, s = rstrip s ++ ws.
Proof.
  destruct (lstrip_split (reverse s)) as (ws & Hs & _).
  exists (reverse ws). unfold rstrip.
  by rewrite <- reverse_app, <- Hs, reverse_involutive.
Qed.

Lemma strip_sublist s : strip s `sublist_of` s.
Proof.
  unfold strip. etrans; [apply lstrip_sublist|].
  destruct (rstrip_split s) as (ws & Hs).
  rewrite Hs at 2. by apply sublist_inserts_r.
Qed.

Lemma rstrip_split_space s :
  exists ws, s = rstrip s ++ ws /\ Forall (fun c => isspace c = true) ws.
Proof.
  destruct (lstrip_split (reverse s)) as (ws & Hs & Hws).
  exists (reverse ws). split.
  - unfold rstrip. by rewrite <- reverse_app, <- Hs, reverse_involutive.
  - apply Forall_forall. intros c Hc.
    apply (proj1 (elem_of_reverse _ _)) in Hc.
    by apply (proj1 (Forall_forall _ _) Hws).
Qed.

Lemma strip_split s :
  exists a b,
    s = a ++ strip s ++ b
    /\ Forall (fun c => isspace c = true) a
    /\ Forall (fun c => isspace c = true) b.
Proof.
  destruct (rstrip_split_space s) as (b & Hs & Hb).
  destruct (lstrip_split (rstrip s)) as (a & Hr & Ha).
  exists a, b. split; [|done].
  unfold strip. rewrite app_assoc, <- Hr. exact Hs.
Qed.

Lemma strip_fix s : head_ok s -> head_ok (reverse s) -> strip s = s.
Proof.
  intros H1 H2. unfold strip. rewrite (rstrip_fix _ H2). by apply lstrip_fix.
Qed.

Lemma strip_head_ok s : head_ok (strip s) /\ head_ok (reverse (strip s)).
Proof.
  split; [apply lstrip_head_ok|].
  apply lstrip_keeps_last, rstrip_last_ok.
Qed.

(** The table of [isspace], point by point. *)
Lemma isspace_table (c : char) :
  isspace c = true
  <-> c ∈ [9; 10; 11; 12; 13; 28; 29; 30; 31; 32; 133; 160; 5760;
           8192; 8193; 8194; 8195; 8196; 8197; 8198; 8199; 8200; 8201; 8202;
           8232; 8233; 8239; 8287; 12288]%N.
Proof.
  unfold isspace.
  rewrite !elem_of_cons, elem_of_nil, !orb_true_iff, !andb_true_iff,
    !N.leb_le, !N.eqb_eq.
  lia.
Qed.

(** [startswith] and [endswith] are the prefix and suffix relations. *)
Lemma startswith_spec (s p : str) :
  startswith s p = true <-> exists rest, s = p ++ rest.
Proof.
  revert s. induction p as [|a p IH]; intros s; simpl.
  - split; [intros _; by exists s | by destruct s].
  - destruct s as [|b s].
    + split; [done | intros [rest Hrest]; discriminate Hrest].
    + cbn [startswith]. rewrite andb_true_iff, N.eqb_eq, IH. split.
      * intros [-> [rest ->]]. by exists rest.
      * intros [rest Hrest]. injection Hrest as -> ->. split; [done | by exists rest].
Qed.

Lemma endswith_spec (s e : str) :
  endswith s e = true <-> exists stem, s = stem ++ e.
Proof.
  unfold endswith. rewrite andb_true_iff, !bool_decide_eq_true. split.
  - intros [Hlen Hdrop]. exists (take (length s - length e) s).
    rewrite <- Hdrop at 2. by rewrite take_drop.
  - intros [stem ->]. rewrite length_app. split; [lia|].
    replace (length stem + length e - length e) with (length stem) by lia.
    by rewrite drop_app_length.
Qed.

End strip_facts.

(** ** The filename sanitizer *)

Section sanitize_facts.

Lemma replace_loop cs (x : str) :
  foldl (fun fn char => replace char ch_underscore fn) x cs = scrub cs <$> x.
Proof.
  revert x. induction cs as [|a cs IH]; intros x; simpl.
  - induction x as [|c x IHx]; simpl; [done|].
    change (c :: x = scrub [] c :: (scrub [] <$> x)). by rewrite <- IHx.
  - rewrite IH. unfold replace. rewrite <- list_fmap_compose.
    apply list_fmap_ext. intros _ c _. unfold scrub; simpl.
    destruct (N.eqb_spec c a) as [->|Hne].
    + rewrite (bool_decide_eq_true_2 (a ∈ a :: cs)) by (apply elem_of_cons; by left).
      by case_bool_decide.
    + rewrite (bool_decide_ext (c ∈ a :: cs) (c ∈ cs)); [done|].
      rewrite elem_of_cons. split; [intros [?|?]; done | by right].
Qed.

Lemma truncate_take (s : str) :
  (if bool_decide (100 < length s) then take 100 s else s) = take 100 s.
Proof. case_bool_decide; [done|]. rewrite take_ge; [done|lia]. Qed.

Lemma sanitize_filename_unfold x :
  sanitize_filename x = strip (take 100 (scrub invalid_chars <$> x)).
Proof. unfold sanitize_filename. by rewrite replace_loop, truncate_take. Qed.

Lemma scrub_clean c : scrub invalid_chars c ∉ invalid_chars.
Proof.
  unfold scrub. case_bool_decide as Hc; [|exact Hc].
  apply (bool_decide_eq_false_1 (ch_underscore ∈ invalid_chars)).
  vm_compute. reflexivity.
Qed.

Lemma scrub_id (s : str) :
  Forall (fun c => c ∉ invalid_chars) s -> scrub invalid_chars <$> s = s.
Proof.
  induction 1 as [|c s Hc _ IH]; [done|].
  rewrite fmap_cons, IH. unfold scrub. by rewrite bool_decide_eq_false_2.
Qed.

Lemma sanitize_filename_clean x :
  Forall (fun c => c ∉ invalid_chars) (sanitize_filename x).
Proof.
  rewrite sanitize_filename_unfold. apply Forall_forall. intros c Hc.
  assert (Hsub : strip (take 100 (scrub invalid_chars <$> x))
                   `sublist_of` (scrub invalid_chars <$> x)).
  { etrans; [apply strip_sublist | apply sublist_take]. }
  apply (elem_of_sublist _ _ _ Hc) in Hsub.
  apply list_elem_of_fmap in Hsub as (d & -> & _). apply scrub_clean.
Qed.

Lemma sanitize_filename_length x : length (sanitize_filename x) ≤ 100.
Proof.
  rewrite sanitize_filename_unfold.
  etrans; [apply sublist_length, strip_sublist|].
  rewrite length_take. lia.
Qed.

End sanitize_facts.

(** C5: [sanitize_filename] replaces each of the nine characters
    [<], [>], [:], the double quote, [/], the backslash, [|], [?] and [*]
    (code points 60, 62, 58, 34, 47, 92, 124, 63, 42) by an underscore
    (95), keeps at most the first 100 characters and strips surrounding
    whitespace: what is left of the first 100 characters, replaced, is
    the result with nothing but whitespace before and after it, and the
    result neither starts nor ends with whitespace, for Python's table
    of whitespace. It is idempotent, its output is at most 100 characters
    long and contains none of the nine characters. *)
Theorem sanitize_filename_spec (x : str) :
  let nine : list char := [60; 62; 58; 34; 47; 92; 124; 63; 42]%N in
  let whitespace : list char :=
    [9; 10; 11; 12; 13; 28; 29; 30; 31; 32; 133; 160; 5760;
     8192; 8193; 8194; 8195; 8196; 8197; 8198; 8199; 8200; 8201; 8202;
     8232; 8233; 8239; 8287; 12288]%N in
  let replaced :=
    (fun c => if bool_decide (c ∈ nine) then 95%N else c) <$> x in
  sanitize_filename x
    = strip (take 100 ((fun c => if bool_decide (c ∈ invalid_chars)
                                 then ch_underscore else c) <$> x))
  /\ sanitize_filename (sanitize_filename x) = sanitize_filename x
  /\ length (sanitize_filename x) ≤ 100
  /\ Forall (fun c => c ∉ invalid_chars) (sanitize_filename x)
  /\ invalid_chars = nine
  /\ (forall c, isspace c = true <-> c ∈ whitespace)
  /\ (exists before after,
        take 100 replaced = before ++ sanitize_filename x ++ after
        /\ Forall (fun c => c ∈ whitespace) before
        /\ Forall (fun c => c ∈ whitespace) after)
  /\ (forall c rest, sanitize_filename x = c :: rest -> c ∉ whitespace)
  /\ (forall front c, sanitize_filename x = front ++ [c] -> c ∉ whitespace)
  /\ Forall (fun c => c ∉ nine) (sanitize_filename x).
Proof.
  intros nine whitespace replaced.
  split; [apply sanitize_filename_unfold|].
  split.
  { rewrite (sanitize_filename_unfold (sanitize_filename x)).
    rewrite scrub_id by apply sanitize_filename_clean.
    rewrite take_ge by apply sanitize_filename_length.
    rewrite sanitize_filename_unfold. apply strip_strip. }
  split; [apply sanitize_filename_length|].
  split; [apply sanitize_filename_clean|].
  split; [reflexivity|].
  split; [apply isspace_table|].
  assert (Hrun : sanitize_filename x = strip (take 100 replaced))
    by apply sanitize_filename_unfold.
  split.
  { destruct (strip_split (take 100 replaced)) as (a & b & Hs & Ha & Hb).
    exists a, b. split; [by rewrite Hrun|].
    split; (eapply Forall_impl; [eassumption|]);
      intros c Hc; by apply isspace_table. }
  destruct (strip_head_ok (take 100 replaced)) as [Hhead Hlast].
  rewrite <- Hrun in Hhead, Hlast.
  split.
  { intros c rest E Hc. rewrite E in Hhead. simpl in Hhead.
    apply isspace_table in Hc. congruence. }
  split.
  { intros front c E Hc. rewrite E, reverse_snoc in Hlast. simpl in Hlast.
    apply isspace_table in Hc. congruence. }
  apply sanitize_filename_clean.
Qed.

(** ** Regular expressions: the matcher decides prefix membership *)

Section regex_facts.

Lemma nullable_spec r : nullable r = true <-> Lang r [].
Proof.
  induction r as [| | c | p | r1 IH1 r2 IH2 | r1 IH1 r2 IH2 | r IH]; simpl.
  - split; [done | inversion 1].
  - split; [constructor | done].
  - split; [done | inversion 1].
  - split; [done | inversion 1].
  - rewrite andb_true_iff, IH1, IH2. split.
    + intros [H1 H2]. apply (Lang_cat _ _ [] [] H1 H2).
    + inversion 1 as [| | |? ? s1 s2 H1 H2 E1 E2| | | |]; subst.
      apply app_eq_nil in E2 as [-> ->]. done.
  - rewrite orb_true_iff, IH1, IH2. split.
    + intros [H|H]; [by apply Lang_alt_l | by apply Lang_alt_r].
    + inversion 1; subst; [by left | by right].
  - split; [constructor | done].
Qed.

Lemma Lang_star_cons r c s :
  Lang (Star r) (c :: s) ->
  exists s1 s2, s = s1 ++ s2 /\ Lang r (c :: s1) /\ Lang (Star r) s2.
Proof.
  intros H. remember (Star r) as q eqn:Eq. remember (c :: s) as w eqn:Ew.
  revert s Ew. induction H as [| | | | | | |q' s1 s2 H1 _ H2 IH2]; try discriminate.
  injection Eq as ->. intros s Ew.
  destruct s1 as [|d s1]; simpl in Ew.
  - by apply IH2.
  - injection Ew as -> <-. by exists s1, s2.
Qed.

Lemma deriv_spec c r s : Lang (deriv c r) s <-> Lang r (c :: s).
Proof.
  revert s.
  induction r as [| | d | p | r1 IH1 r2 IH2 | r1 IH1 r2 IH2 | r IH];
    intros s; simpl.
  - split; inversion 1.
  - split; inversion 1.
  - destruct (N.eqb_spec c d) as [->|Hne]; split; inversion 1; subst;
      try constructor; done.
  - destruct (p c) eqn:Hp; split; inversion 1; subst;
      try (by constructor); congruence.
  - assert (Hcat : Lang (Cat (deriv c r1) r2) s <->
                   exists s1 s2, s = s1 ++ s2 /\ Lang r1 (c :: s1) /\ Lang r2 s2).
    { split.
      - inversion 1; subst. eexists _, _. split; [done|]. by rewrite <- IH1.
      - intros (s1 & s2 & -> & H1 & H2). constructor; [by apply IH1 | done]. }
    assert (Hsplit : Lang (Cat r1 r2) (c :: s) <->
              (exists s1 s2, s = s1 ++ s2 /\ Lang r1 (c :: s1) /\ Lang r2 s2)
              \/ (Lang r1 [] /\ Lang r2 (c :: s))).
    { split.
      - inversion 1 as [| | |? ? s1 s2 H1 H2 E1 E2| | | |]; subst.
        destruct s1 as [|d s1]; simpl in E2.
        + right. by subst.
        + injection E2 as -> <-. left. by exists s1, s2.
      - intros [(s1 & s2 & -> & H1 & H2)|[H1 H2]].
        + apply (Lang_cat _ _ (c :: s1) s2 H1 H2).
        + apply (Lang_cat _ _ [] (c :: s) H1 H2). }
    rewrite Hsplit. destruct (nullable r1) eqn:Hn.
    + apply nullable_spec in Hn. split.
      * inversion 1; subst; [left; by apply Hcat | right; by rewrite <- IH2].
      * intros [H|[_ H]]; [apply Lang_alt_l; by apply Hcat
                          | apply Lang_alt_r; by apply IH2].
    + rewrite Hcat. split; [by left|]. intros [H|[H _]]; [done|].
      apply nullable_spec in H. congruence.
  - split.
    + inversion 1; subst; [apply Lang_alt_l; by apply IH1
                          | apply Lang_alt_r; by apply IH2].
    + inversion 1; subst; [apply Lang_alt_l; by apply IH1
                          | apply Lang_alt_r; by apply IH2].
  - split.
    + inversion 1 as [| | |? ? s1 s2 H1 H2 E1 E2| | | |]; subst.
      apply IH in H1. apply (Lang_star_more _ (c :: s1) s2 H1 H2).
    + intros H. apply Lang_star_cons in H as (s1 & s2 & -> & H1 & H2).
      constructor; [by apply IH | done].
Qed.

Lemma re_match_spec r s : re_match r s = true <-> Prefix r anything s.
Proof.
  revert r. induction s as [|c s IH]; intros r; simpl.
  - rewrite orb_false_r, nullable_spec. split.
    + intros H. by exists [], [].
    + intros (p & t & E & H & _). symmetry in E.
      apply app_eq_nil in E as [-> ->]. done.
  - rewrite orb_true_iff, nullable_spec, IH. split.
    + intros [H|(p & t & -> & H & _)].
      * by exists [], (c :: s).
      * exists (c :: p), t. split; [done|]. split; [by apply deriv_spec | done].
    + intros (p & t & E & H & _). destruct p as [|d p]; simpl in E.
      * by left.
      * injection E as -> ->. right. exists p, t.
        split; [done|]. split; [by apply deriv_spec | done].
Qed.

End regex_facts.

(** ** Prefix matching, one construct at a time *)

Section prefix_facts.

Implicit Types (K : str -> Prop) (r : regex) (s w : str).

Lemma Prefix_ext r K K' s :
  (forall t, K t <-> K' t) -> Prefix r K s <-> Prefix r K' s.
Proof.
  intros HK. unfold Prefix. split; intros (p & t & E & H & Ht);
    exists p, t; (split; [done|]); (split; [done|]); by apply HK.
Qed.

Lemma Prefix_eps K s : Prefix Eps K s <-> K s.
Proof.
  split.
  - intros (p & t & -> & H & Ht). by inversion H; subst.
  - intros H. exists [], s. split; [done|]. split; [constructor | done].
Qed.

Lemma Prefix_chr c K s : Prefix (Chr c) K s <-> exists t, s = c :: t /\ K t.
Proof.
  split.
  - intros (p & t & -> & H & Ht). inversion H; subst. by exists t.
  - intros (t & -> & Ht). exists [c], t.
    split; [done|]. split; [constructor | done].
Qed.

Lemma Prefix_cat r1 r2 K s :
  Prefix (Cat r1 r2) K s <-> Prefix r1 (Prefix r2 K) s.
Proof.
  split.
  - intros (p & t & -> & H & Ht). inversion H; subst.
    exists s1, (s2 ++ t). split; [by rewrite app_assoc|]. split; [done|].
    by exists s2, t.
  - intros (p1 & t1 & -> & H1 & p2 & t & -> & H2 & Ht).
    exists (p1 ++ p2), t. split; [by rewrite app_assoc|].
    split; [by constructor | done].
Qed.

Lemma Prefix_alt r1 r2 K s :
  Prefix (Alt r1 r2) K s <-> Prefix r1 K s \/ Prefix r2 K s.
Proof.
  split.
  - intros (p & t & -> & H & Ht).
    inversion H; subst; [left | right]; by exists p, t.
  - intros [(p & t & -> & H & Ht)|(p & t & -> & H & Ht)]; exists p, t;
      (split; [done|]); (split; [|done]);
      [by apply Lang_alt_l | by apply Lang_alt_r].
Qed.

Lemma Prefix_opt r K s : Prefix (Opt r) K s <-> Prefix r K s \/ K s.
Proof. unfold Opt. by rewrite Prefix_alt, Prefix_eps. Qed.

Lemma Prefix_str w K s : Prefix (Str w) K s <-> exists t, s = w ++ t /\ K t.
Proof.
  revert s. induction w as [|c w IH]; intros s; simpl.
  - rewrite Prefix_eps. split; [intros H; by exists s | by intros (t & -> & H)].
  - rewrite Prefix_cat, Prefix_chr. split.
    + intros (t & -> & H). apply IH in H as (t' & -> & H). by exists t'.
    + intros (t & -> & H). exists (w ++ t). split; [done|].
      apply IH. by exists t.
Qed.

Lemma Prefix_nullable r s : nullable r = true -> Prefix r anything s.
Proof.
  intros H. apply nullable_spec in H. exists [], s.
  split; [done|]. by split.
Qed.

(** A class repeated at least once, followed by anything that may be
    empty: one character of the class is enough, and needed. *)
Lemma Prefix_plus_cls f r s :
  nullable r = true ->
  Prefix (Cat (Plus (Cls f)) r) anything s <->
  exists c t, s = c :: t /\ f c = true.
Proof.
  intros Hr. split.
  - intros (p & t & -> & H & _).
    inversion H as [| | |? ? s1 s2 H1 H2| | | |]; subst.
    inversion H1 as [| | |? ? s3 s4 H3 H4| | | |]; subst.
    inversion H3; subst. simpl. eauto.
  - intros (c & t & -> & Hc). apply Prefix_cat.
    exists [c], t. split; [done|]. split; [|by apply Prefix_nullable].
    change [c] with ([c] ++ []). constructor; [by constructor | constructor].
Qed.

End prefix_facts.

(** ** The URL classifier against the URL shapes *)

(** Membership of a concrete element in a concrete list. *)
Ltac list_mem := apply list_elem_of_In; simpl; tauto.

(** Case analysis on membership in a concrete list. *)
Ltac list_cases H :=
  repeat (apply elem_of_cons in H as [H|H]; [try subst|]);
  [..|by apply elem_of_nil in H].

Section classifier_facts.

Variable unicode_isalnum : char -> bool.

Local Abbreviation id_char := (id_char unicode_isalnum).
Local Abbreviation is_youtube_url := (is_youtube_url unicode_isalnum).
Local Abbreviation shaped := (shaped unicode_isalnum).
Local Abbreviation supported_url := (supported_url unicode_isalnum).

Lemma scheme_spec K s :
  Prefix re_scheme K s <->
  exists sch t, sch ∈ schemes /\ s = sch ++ t /\ K t.
Proof.
  unfold re_scheme. rewrite Prefix_opt. split.
  - intros [H|H].
    + apply Prefix_cat, Prefix_str in H as (t & -> & H).
      apply Prefix_cat, Prefix_opt in H as [H|H].
      * apply Prefix_str in H as (u & -> & H).
        apply Prefix_cat, Prefix_str in H as (v & -> & H).
        rewrite Prefix_eps in H.
        exists (lit "https://"), v. split; [list_mem | done].
      * apply Prefix_cat, Prefix_str in H as (v & -> & H).
        rewrite Prefix_eps in H.
        exists (lit "http://"), v. split; [list_mem | done].
    + exists [], s. split; [list_mem | done].
  - intros (sch & t & Hsch & -> & HK). list_cases Hsch.
    + by right.
    + left. apply Prefix_cat, Prefix_str. exists (lit "://" ++ t).
      split; [done|]. apply Prefix_cat, Prefix_opt. right.
      apply Prefix_cat, Prefix_str. exists t. split; [done|].
      by apply Prefix_eps.
    + left. apply Prefix_cat, Prefix_str. exists (lit "s://" ++ t).
      split; [done|]. apply Prefix_cat, Prefix_opt. left.
      apply Prefix_str. exists (lit "://" ++ t). split; [done|].
      apply Prefix_cat, Prefix_str. exists t. split; [done|].
      by apply Prefix_eps.
Qed.

(** Every pattern of [youtube_patterns] has this form: the scheme, an
    optional subdomain, a fixed host and path, an id, and a tail that may
    be empty. *)
Lemma pattern_spec sub body T s :
  nullable T = true ->
  re_match (Cat re_scheme (Cat (Opt (Str sub)) (Cat (Str body)
             (Cat (Plus (Cls id_char)) T)))) s = true
  <-> shaped sub body s.
Proof.
  intros HT. rewrite re_match_spec, Prefix_cat, scheme_spec. split.
  - intros (sch & t & Hsch & -> & H).
    apply Prefix_cat, Prefix_opt in H as [H|H].
    + apply Prefix_str in H as (u & -> & H).
      apply Prefix_cat, Prefix_str in H as (v & -> & H).
      apply Prefix_plus_cls in H as (c & rest & -> & Hc); [|done].
      exists sch, sub, c, rest. split; [done|]. split; [list_mem | done].
    + apply Prefix_cat, Prefix_str in H as (v & -> & H).
      apply Prefix_plus_cls in H as (c & rest & -> & Hc); [|done].
      exists sch, [], c, rest. split; [done|]. split; [list_mem | done].
  - intros (sch & sb & c & rest & Hsch & Hsb & Hc & ->).
    exists sch, (sb ++ body ++ c :: rest). split; [done|]. split; [done|].
    apply Prefix_cat, Prefix_opt.
    assert (Hid : Prefix (Cat (Str body) (Cat (Plus (Cls id_char)) T))
                    anything (body ++ c :: rest)).
    { apply Prefix_cat, Prefix_str. exists (c :: rest). split; [done|].
      apply Prefix_plus_cls; eauto. }
    list_cases Hsb.
    + by right.
    + left. apply Prefix_str. eauto.
Qed.

Lemma is_youtube_url_shaped s :
  is_youtube_url s = true <->
  exists sub body, (sub, body) ∈ pattern_table /\ shaped sub body s.
Proof.
  unfold is_youtube_url. rewrite existsb_exists. split.
  - intros (r & Hr & H). apply list_elem_of_In in Hr.
    unfold youtube_patterns in Hr. list_cases Hr.
    + apply (pattern_spec (lit "www.") (lit "youtube.com/watch?v=") Eps) in H;
        [|done]. eexists _, _. split; [|exact H]. list_mem.
    + apply (pattern_spec (lit "www.") (lit "youtu.be/") Eps) in H;
        [|done]. eexists _, _. split; [|exact H]. list_mem.
    + apply (pattern_spec (lit "m.") (lit "youtube.com/watch?v=") Eps) in H;
        [|done]. eexists _, _. split; [|exact H]. list_mem.
    + apply (pattern_spec (lit "www.") (lit "youtube.com/shorts/") Eps) in H;
        [|done]. eexists _, _. split; [|exact H]. list_mem.
    + apply (pattern_spec (lit "m.") (lit "youtube.com/shorts/") Eps) in H;
        [|done]. eexists _, _. split; [|exact H]. list_mem.
    + apply (pattern_spec (lit "www.") (lit "youtube.com/watch?v=")
               (seq [Opt (seq [Str (lit "&"); Star Dot])])) in H;
        [|done]. eexists _, _. split; [|exact H]. list_mem.
    + apply (pattern_spec (lit "www.") (lit "youtube.com/shorts/")
               (seq [Opt (seq [Str (lit "?"); Star Dot])])) in H;
        [|done]. eexists _, _. split; [|exact H]. list_mem.
  - intros (sub & body & Hin & H).
    apply (pattern_spec sub body Eps) in H; [|done].
    eexists. split; [|exact H]. apply list_elem_of_In.
    unfold pattern_table in Hin. list_cases Hin;
      injection Hin as -> ->; list_mem.
Qed.

Lemma supported_url_shaped s :
  supported_url s <->
  exists sub body, (sub, body) ∈ pattern_table /\ shaped sub body s.
Proof.
  split.
  - intros (sch & stem & c & rest & Hsch & Hstem & Hc & ->).
    unfold known_stems in Hstem. list_cases Hstem.
    + exists (lit "www."), (lit "youtube.com/watch?v="). split; [list_mem|].
      exists sch, [], c, rest. split; [done|]. split; [list_mem | done].
    + exists (lit "www."), (lit "youtube.com/watch?v="). split; [list_mem|].
      exists sch, (lit "www."), c, rest. split; [done|]. split; [list_mem | done].
    + exists (lit "m."), (lit "youtube.com/watch?v="). split; [list_mem|].
      exists sch, (lit "m."), c, rest. split; [done|]. split; [list_mem | done].
    + exists (lit "www."), (lit "youtu.be/"). split; [list_mem|].
      exists sch, [], c, rest. split; [done|]. split; [list_mem | done].
    + exists (lit "www."), (lit "youtu.be/"). split; [list_mem|].
      exists sch, (lit "www."), c, rest. split; [done|]. split; [list_mem | done].
    + exists (lit "www."), (lit "youtube.com/shorts/"). split; [list_mem|].
      exists sch, [], c, rest. split; [done|]. split; [list_mem | done].
    + exists (lit "www."), (lit "youtube.com/shorts/"). split; [list_mem|].
      exists sch, (lit "www."), c, rest. split; [done|]. split; [list_mem | done].
    + exists (lit "m."), (lit "youtube.com/shorts/"). split; [list_mem|].
      exists sch, (lit "m."), c, rest. split; [done|]. split; [list_mem | done].
  - intros (sub & body & Hin & sch & sb & c & rest & Hsch & Hsb & Hc & ->).
    exists sch, (sb ++ body), c, rest. split; [done|].
    split; [|split; [done | by rewrite <- app_assoc]].
    unfold pattern_table in Hin.
    list_cases Hin; injection Hin as -> ->; list_cases Hsb; list_mem.
Qed.

Lemma is_youtube_url_iff s : is_youtube_url s = true <-> supported_url s.
Proof. by rewrite is_youtube_url_shaped, supported_url_shaped. Qed.

End classifier_facts.


(** C10: the scheme is optional in every pattern: each supported shape is
    also accepted with no scheme at all and with a plain [http://], for
    instance [youtube.com/watch?v=VIDEO_ID] and [www.youtu.be/VIDEO_ID]. *)
Theorem is_youtube_url_scheme_optional
    (unicode_isalnum : char -> bool) (stem : str) (c : char) (rest : str) :
  stem ∈ known_stems ->
  id_char unicode_isalnum c = true ->
  is_youtube_url unicode_isalnum (stem ++ c :: rest) = true
  /\ is_youtube_url unicode_isalnum (lit "http://" ++ stem ++ c :: rest) = true
  /\ is_youtube_url unicode_isalnum (lit "youtube.com/watch?v=VIDEO_ID") = true
  /\ is_youtube_url unicode_isalnum (lit "www.youtu.be/VIDEO_ID") = true.
Proof.
  intros Hstem Hc.
  split; [|split; [|split; vm_compute; reflexivity]].
  - apply is_youtube_url_iff. exists [], stem, c, rest.
    split; [list_mem | done].
  - apply is_youtube_url_iff. exists (lit "http://"), stem, c, rest.
    split; [list_mem | done].
Qed.

Lemma is_youtube_url_scheme_optional_witness :
  is_youtube_url (fun _ => false) (lit "youtu.be/" ++ 97%N :: lit "bc?t=1") = true
  /\ is_youtube_url (fun _ => false)
       (lit "http://" ++ lit "youtu.be/" ++ 97%N :: lit "bc?t=1") = true
  /\ is_youtube_url (fun _ => false) (lit "youtube.com/watch?v=VIDEO_ID") = true
  /\ is_youtube_url (fun _ => false) (lit "www.youtu.be/VIDEO_ID") = true.
Proof.
  apply (is_youtube_url_scheme_optional
           (fun _ => false) (lit "youtu.be/") 97%N (lit "bc?t=1")).
  - list_mem.
  - reflexivity.
Defined.

(** ** Normalization of the engine's record *)

(** Lookup of a constant key in a dictionary display. *)
Ltac dict_lookup :=
  unfold video_info_of, to_dict; cbn [list_to_map foldr fst snd uncurry];
  repeat (rewrite lookup_insert_ne by discriminate);
  rewrite ?lookup_insert_eq, ?lookup_empty.

Lemma video_info_of_lookup (info : dict) (url : str) (k : string) :
  video_info_of info url !! k =
    if bool_decide (k = "title")
    then Some (dict_get info "title" (VStr (lit "Unknown")))
    else if bool_decide (k = "uploader")
    then Some (dict_get info "uploader" (VStr (lit "Unknown")))
    else if bool_decide (k = "duration")
    then Some (dict_get info "duration" (VInt 0))
    else if bool_decide (k = "like_count")
    then Some (dict_get info "like_count" (VInt 0))
    else if bool_decide (k = "view_count")
    then Some (dict_get info "view_count" (VInt 0))
    else if bool_decide (k = "url") then Some (VStr url)
    else if bool_decide (k = "id")
    then Some (dict_get info "id" (VStr []))
    else if bool_decide (k = "thumbnail")
    then Some (dict_get info "thumbnail" (VStr []))
    else None.
Proof.
  unfold video_info_of; cbn [list_to_map foldr fst snd uncurry].
  repeat (case_bool_decide;
          [ subst k; repeat (rewrite lookup_insert_ne by discriminate);
            by rewrite lookup_insert_eq
          | rewrite (lookup_insert_ne _ _ k) by congruence ]).
  apply lookup_empty.
Qed.

(** C3, as the code has it: a field that the engine's record leaves out
    gets the default written in the code ("Unknown" for the title and the
    uploader, the empty string for the id and the thumbnail, 0 for the
    duration and the counts), the URL is the one asked for, a field that
    is there with a value other than [None] is copied, and the result
    always has all eight keys; it holds no [None] when the engine's
    record holds none. *)
Theorem video_info_of_defaults (info : dict) (url : str) :
  let md := video_info_of info url in
  dom md = list_to_set video_info_keys
  /\ md !! "url" = Some (VStr url)
  /\ (forall k, k ∈ ["title"; "uploader"] -> info !! k = None ->
        md !! k = Some (VStr (lit "Unknown")))
  /\ (forall k, k ∈ ["id"; "thumbnail"] -> info !! k = None ->
        md !! k = Some (VStr []))
  /\ (forall k, k ∈ ["duration"; "like_count"; "view_count"] ->
        info !! k = None -> md !! k = Some (VInt 0))
  /\ (forall k v, k ∈ video_info_keys -> k <> "url" ->
        info !! k = Some v -> v <> VNone -> md !! k = Some v)
  /\ ((forall k, info !! k <> Some VNone) -> forall k, md !! k <> Some VNone).
Proof.
  intros md. subst md.
  split.
  { unfold video_info_of. rewrite dom_list_to_map_L. reflexivity. }
  split; [by rewrite video_info_of_lookup|].
  split.
  { intros k Hk Hnone. list_cases Hk;
      rewrite video_info_of_lookup; simpl; unfold dict_get;
      by rewrite Hnone. }
  split.
  { intros k Hk Hnone. list_cases Hk;
      rewrite video_info_of_lookup; simpl; unfold dict_get;
      by rewrite Hnone. }
  split.
  { intros k Hk Hnone. list_cases Hk;
      rewrite video_info_of_lookup; simpl; unfold dict_get;
      by rewrite Hnone. }
  split.
  { intros k v Hk Hurl Hv _. unfold video_info_keys in Hk. list_cases Hk;
      try done; rewrite video_info_of_lookup; simpl; unfold dict_get;
      by rewrite Hv. }
  intros Hinfo k. rewrite video_info_of_lookup.
  repeat (case_bool_decide; [
    unfold dict_get;
    match goal with
    | |- Some (default _ (info !! ?key)) <> _ =>
        specialize (Hinfo key); destruct (info !! key) as [[]|]; simpl;
        congruence
    | |- _ => done
    end |]).
  done.
Qed.

(** C3, as stated, fails on the id: a record without an id is given the
    empty string, not "Unknown". *)
Lemma video_info_of_missing_id :
  (∅ : dict) !! "id" = None
  /\ video_info_of ∅ (lit "https://youtu.be/abc123") !! "id"
     = Some (VStr [])
  /\ VStr [] <> VStr (lit "Unknown").
Proof.
  split; [apply lookup_empty|]. split; [|discriminate].
  rewrite video_info_of_lookup. reflexivity.
Qed.

(** A key that the engine's record holds with the value [None] is not a
    missing key for [dict.get]: the [None] is copied, and the comparison
    with the threshold then raises. *)
Example video_info_of_explicit_null :
  let md := video_info_of {[ "like_count" := VNone ]}
              (lit "https://youtu.be/abc123") in
  md !! "like_count" = Some VNone
  /\ (check_likes 10 md idle).1 = Raised TypeError.
Proof. split; vm_compute; reflexivity. Qed.

(** ** The metadata resolver *)

Section resolver_facts.

Context {W : Type} {host : Host W}.

Lemma try_strategy_spec (url : str) (opts : ydl_opts) (st : session W) :
  try_strategy url opts st =
    let '(r, w) := H_extract_info opts url (world st) in
    (Returned match r with
              | Returned (Some info) => Some (video_info_of info url)
              | Returned None | Raised _ => None
              end,
     record_call (CallExtract opts url r) w st).
Proof.
  unfold try_strategy, try_except, bind, extract_info, lift, ret.
  destruct (H_extract_info opts url (world st)) as [[[info|]|e] w]; reflexivity.
Qed.


End resolver_facts.

Section resolver_engine.

Context {W : Type} {host : Host W}.

(** The results that the resolver works with are the engine's own. *)
Lemma try_strategies_engine (url : str) (l : list ydl_opts) (st : session W) :
  exists results res st',
    try_strategies url l st = (Returned res, st')
    /\ (results, world st') = engine_answers url l (world st)
    /\ calls st' = calls st ++ attempts url l results
    /\ length results ≤ length l
    /\ user_data st' = user_data st
    /\ outbox st' = outbox st
    /\ match res with
       | Some md =>
           exists earlier info,
             results = earlier ++ [Returned (Some info)]
             /\ Forall (fun r => attempt_failed r = true) earlier
             /\ md = video_info_of info url
       | None =>
           length results = length l
           /\ Forall (fun r => attempt_failed r = true) results
       end.
Proof.
  revert st. induction l as [|opts rest IH]; intros st.
  - exists [], None, st. simpl. rewrite app_nil_r. by repeat split.
  - cbn [try_strategies engine_answers]. unfold bind at 1.
    rewrite try_strategy_spec.
    destruct (H_extract_info opts url (world st)) as [r w] eqn:Hr.
    set (st1 := record_call (CallExtract opts url r) w st).
    destruct r as [[info|]|e]; cbn [attempt_failed].
    + exists [Returned (Some info)], (Some (video_info_of info url)), st1.
      split; [done|]. split; [done|]. split; [by destruct rest|].
      split; [simpl; lia|]. split; [done|]. split; [done|].
      exists [], info. by repeat split.
    + destruct (IH st1)
        as (results & res & st' & Hrun & He & Hc & Hlen & Hu & Ho & Hres).
      change (world st1) with w in He. rewrite <- He.
      exists (Returned None :: results), res, st'.
      split; [done|]. split; [done|].
      split; [rewrite Hc; simpl; by rewrite <- app_assoc|].
      split; [simpl; lia|]. split; [done|]. split; [done|].
      destruct res as [md|].
      * destruct Hres as (earlier & info & -> & Hall & ->).
        exists (Returned None :: earlier), info.
        split; [done|]. split; [by constructor | done].
      * destruct Hres as [Hl Hall]. split; [simpl; lia | by constructor].
    + destruct (IH st1)
        as (results & res & st' & Hrun & He & Hc & Hlen & Hu & Ho & Hres).
      change (world st1) with w in He. rewrite <- He.
      exists (Raised e :: results), res, st'.
      split; [done|]. split; [done|].
      split; [rewrite Hc; simpl; by rewrite <- app_assoc|].
      split; [simpl; lia|]. split; [done|]. split; [done|].
      destruct res as [md|].
      * destruct Hres as (earlier & info & -> & Hall & ->).
        exists (Raised e :: earlier), info.
        split; [done|]. split; [by constructor | done].
      * destruct Hres as [Hl Hall]. split; [simpl; lia | by constructor].
Qed.

(** On an engine whose answer depends on the configuration alone, the
    answers asked for are those of the configurations up to the first
    that succeeds. *)
Lemma engine_answers_first (url : str)
    (answer : ydl_opts -> outcome (option dict))
    (l : list ydl_opts) (w : W) (n : nat) (info : dict) :
  (forall opts w', (H_extract_info opts url w').1 = answer opts) ->
  (answer <$> l) !! n = Some (Returned (Some info)) ->
  (forall m r, m < n -> (answer <$> l) !! m = Some r ->
               attempt_failed r = true) ->
  (engine_answers url l w).1 = take (S n) (answer <$> l).
Proof.
  intros Hans. revert w n. induction l as [|opts rest IH]; intros w n Hn Hbefore.
  - done.
  - cbn [engine_answers]. pose proof (Hans opts w) as Ho.
    destruct (H_extract_info opts url w) as [r w1]. simpl in Ho. subst r.
    rewrite fmap_cons. destruct n as [|n].
    + simpl in Hn. injection Hn as Hn. rewrite Hn. simpl. by rewrite take_0.
    + rewrite (Hbefore 0 (answer opts)); [|lia|done].
      specialize (IH w1 n Hn).
      destruct (engine_answers url rest w1) as [rs w2]. simpl in *.
      f_equal. apply IH. intros m r Hm Hr. apply (Hbefore (S m) r); [lia|done].
Qed.

Lemma engine_answers_none (url : str)
    (answer : ydl_opts -> outcome (option dict))
    (l : list ydl_opts) (w : W) :
  (forall opts w', (H_extract_info opts url w').1 = answer opts) ->
  Forall (fun r => attempt_failed r = true) (answer <$> l) ->
  (engine_answers url l w).1 = answer <$> l.
Proof.
  intros Hans. revert w. induction l as [|opts rest IH]; intros w Hall; [done|].
  cbn [engine_answers]. pose proof (Hans opts w) as Ho.
  destruct (H_extract_info opts url w) as [r w1]. simpl in Ho. subst r.
  rewrite fmap_cons in *. apply Forall_cons in Hall as [Hf Hall].
  rewrite Hf. specialize (IH w1 Hall).
  destruct (engine_answers url rest w1) as [rs w2]. simpl in *. by f_equal.
Qed.

End resolver_engine.

(** C1: [get_video_info] tries the four configurations in their fixed
    order (plain; no certificate check; no certificate check and a
    browser user agent; no certificate check and insecure transport
    preferred), each at most once. The results it works with are the
    answers of the engine itself, asked in that order up to the first
    that succeeds: it returns the normalized record of that answer and
    asks nothing after it; it returns [None], and never raises, exactly
    when all four answers are failures. For an engine whose answer
    depends on the configuration alone: when configuration [n] is the
    first that succeeds, exactly the configurations up to [n] are
    attempted and the record of [n] is returned (only the third
    succeeds: three attempts, the fourth never made); when all fail, all
    four are attempted and [None] is returned. *)
Theorem get_video_info_first_success
    {W : Type} {host : Host W} (url : str) (st : session W) :
  exists results res st',
    get_video_info url st = (Returned res, st')
    /\ calls st' = calls st ++ attempts url ydl_opts_list results
    /\ length results ≤ 4
    /\ match res with
       | Some md =>
           exists earlier info,
             results = earlier ++ [Returned (Some info)]
             /\ Forall (fun r => attempt_failed r = true) earlier
             /\ md = video_info_of info url
       | None =>
           length results = 4
           /\ Forall (fun r => attempt_failed r = true) results
       end
    /\ (res = None <->
        length results = 4 /\ Forall (fun r => attempt_failed r = true) results)
    /\ nocheckcertificate <$> ydl_opts_list = [false; true; true; true]
    /\ (fun o => bool_decide (http_headers o = [])) <$> ydl_opts_list
       = [true; true; false; true]
    /\ prefer_insecure <$> ydl_opts_list = [false; false; false; true]
    /\ (results, world st') = engine_answers url ydl_opts_list (world st)
    /\ user_data st' = user_data st
    /\ outbox st' = outbox st
    /\ (forall answer : ydl_opts -> outcome (option dict),
          (forall opts w, (H_extract_info opts url w).1 = answer opts) ->
          (forall n info,
              (answer <$> ydl_opts_list) !! n = Some (Returned (Some info)) ->
              (forall m r, m < n -> (answer <$> ydl_opts_list) !! m = Some r ->
                           attempt_failed r = true) ->
              res = Some (video_info_of info url)
              /\ results = take (S n) (answer <$> ydl_opts_list)
              /\ calls st' = calls st
                   ++ attempts url (take (S n) ydl_opts_list)
                        (take (S n) (answer <$> ydl_opts_list)))
          /\ (Forall (fun r => attempt_failed r = true)
                 (answer <$> ydl_opts_list) ->
              res = None /\ results = answer <$> ydl_opts_list)).
Proof.
  destruct (try_strategies_engine url ydl_opts_list st)
    as (results & res & st' & Hrun & He & Hc & Hlen & Hu & Ho & Hres).
  exists results, res, st'.
  split; [unfold get_video_info, try_except; by rewrite Hrun|].
  split; [done|]. split; [done|]. split; [done|].
  assert (Hiff : res = None <->
    length results = 4 /\ Forall (fun r => attempt_failed r = true) results).
  { destruct res as [md|]; [|done]. split; [done|].
    intros [_ Hall]. destruct Hres as (earlier & info & -> & _ & _).
    apply Forall_app in Hall as [_ Hlast].
    apply (proj1 (Forall_singleton _ _)) in Hlast. discriminate Hlast. }
  split; [exact Hiff|].
  split; [done|]. split; [done|]. split; [done|].
  split; [done|]. split; [done|]. split; [done|].
  intros answer Hans.
  assert (Hresults : results = (engine_answers url ydl_opts_list (world st)).1)
    by (by rewrite <- He).
  split.
  - intros n info Hn Hbefore.
    rewrite (engine_answers_first url answer _ _ n info Hans Hn Hbefore)
      in Hresults.
    assert (Hlast : results = take n (answer <$> ydl_opts_list)
                              ++ [Returned (Some info)])
      by (rewrite Hresults; by apply take_S_r).
    split; [|split; [done|]].
    + destruct res as [md|].
      * destruct Hres as (earlier & info' & Heq & _ & ->).
        rewrite Hlast in Heq. apply app_inj_tail in Heq as [_ Heq].
        by injection Heq as ->.
      * destruct Hres as [_ Hall]. rewrite Hlast in Hall.
        apply Forall_app in Hall as [_ Hl].
        apply (proj1 (Forall_singleton _ _)) in Hl. discriminate Hl.
    + rewrite Hc, Hresults. f_equal. unfold attempts.
      assert (Hlt : S n ≤ length ydl_opts_list).
      { apply lookup_lt_Some in Hn. rewrite length_fmap in Hn. lia. }
      rewrite <- (take_drop (S n) ydl_opts_list) at 1.
      rewrite zip_with_app_l.
      rewrite (take_ge (take (S n) (answer <$> ydl_opts_list)))
        by (rewrite length_take, length_take, length_fmap; lia).
      rewrite (drop_ge (take (S n) (answer <$> ydl_opts_list)))
        by (rewrite length_take, length_take, length_fmap; lia).
      by rewrite zip_with_nil_r, app_nil_r.
  - intros Hall.
    rewrite (engine_answers_none url answer _ _ Hans Hall) in Hresults.
    split; [|done]. apply Hiff. rewrite Hresults. split; [done | done].
Qed.

(** On an engine where only the third configuration works, three attempts
    are made, in order, and the fourth is never made. *)
Example get_video_info_only_third :
  let run :=
    @get_video_info unit (scripted only_third) (lit "https://youtu.be/abc123")
      idle in
  run.1 = Returned (Some (video_info_of raw_record (lit "https://youtu.be/abc123")))
  /\ calls run.2
     = attempts (lit "https://youtu.be/abc123") (take 3 ydl_opts_list)
         [Raised (Exn "DownloadError"); Raised (Exn "DownloadError");
          Returned (Some raw_record)].
Proof. split; reflexivity. Qed.

(** ** The popularity gate *)

Lemma to_dict_fields (m : VideoMetadata) :
  dict_get (to_dict m) "like_count" (VInt 0) = VInt (likeCount m)
  /\ dict_get (to_dict m) "duration" (VInt 0) = VInt (durationSeconds m)
  /\ dict_get (to_dict m) "title" (VStr (lit "Unknown")) = VStr (vm_title m)
  /\ dict_get (to_dict m) "uploader" (VStr (lit "Unknown")) = VStr (vm_uploader m)
  /\ dict_get (to_dict m) "url" (VStr []) = VStr (sourceUrl m).
Proof. unfold dict_get. repeat split; by dict_lookup. Qed.

Lemma format_duration_int (seconds : Z) :
  exists text, format_duration (VInt seconds) = Returned text.
Proof.
  unfold format_duration.
  destruct (seconds =? 0)%Z; [by eexists|].
  destruct (0 <? seconds / 60 / 60)%Z; by eexists.
Qed.

(** C4: for every metadata record and every threshold, the gate lets the
    download through (the record is stored for the session and the format
    choice is offered) if and only if the like count is at least the
    threshold, the boundary included; otherwise it answers with the
    counts and stores nothing. It never raises and touches nothing else. *)
Theorem popularity_gate
    {W : Type} {host : Host W} (likes_threshold : Z)
    (m : VideoMetadata) (st : session W) :
  let allow := bool_decide (likes_threshold ≤ likeCount m)%Z in
  exists duration st',
    format_duration (VInt (durationSeconds m)) = Returned duration
    /\ check_likes likes_threshold (to_dict m) st = (Returned tt, st')
    /\ user_data st' =
         (if allow then <["video_info" := to_dict m]> (user_data st)
          else user_data st)
    /\ outbox st' = outbox st ++
         [ if allow
           then EditText (MsgApproved (VStr (vm_title m)) (VStr (vm_uploader m))
                            duration (VInt (likeCount m)))
                  (Some format_keyboard)
           else EditText (MsgBelowThreshold (VStr (vm_title m))
                            (VStr (vm_uploader m)) (VInt (likeCount m))
                            likes_threshold) None ]
    /\ world st' = world st
    /\ calls st' = calls st
    /\ (likeCount m = likes_threshold -> allow = true).
Proof.
  intros allow. subst allow.
  destruct (format_duration_int (durationSeconds m)) as [duration Hd].
  destruct (to_dict_fields m) as (Hl & Hdur & Ht & Hu & _).
  exists duration. unfold check_likes. rewrite Hl, Hdur, Ht, Hu, Hd.
  unfold bind, lift, py_lt, send, set_user_data; simpl.
  destruct (Z.ltb_spec (likeCount m) likes_threshold) as [Hlt|Hge].
  - rewrite bool_decide_eq_false_2 by lia.
    eexists. split; [done|]. split; [reflexivity|]. simpl.
    repeat split; try done. intros Heq. lia.
  - rewrite bool_decide_eq_true_2 by lia.
    eexists. split; [done|]. split; [reflexivity|]. simpl.
    by repeat split.
Qed.

(** ** Output discovery *)

Section discovery_facts.

Implicit Types (safe_title output_dir file : str) (files : list str).

Lemma scan_video_find safe_title output_dir files :
  scan_video safe_title output_dir files
  = (fun f => (true, Some (path_join output_dir f)))
      <$> find (titled safe_title) files.
Proof.
  induction files as [|file files IH]; simpl; [done|].
  unfold titled at 1. by destruct (startswith file safe_title).
Qed.

Lemma scan_expected_find safe_title output_dir ext files :
  scan_expected safe_title output_dir ext files
  = (fun f => (true, Some (path_join output_dir f)))
      <$> find (fun f => titled safe_title f && endswith f ext) files.
Proof.
  induction files as [|file files IH]; simpl; [done|].
  unfold titled at 1.
  by destruct (startswith file safe_title && endswith file ext).
Qed.

Lemma scan_exts_existsb output_dir file exts :
  scan_exts output_dir file exts
  = if existsb (endswith file) exts
    then Some (true, Some (path_join output_dir file))
    else None.
Proof.
  induction exts as [|ext exts IH]; simpl; [done|].
  by destruct (endswith file ext).
Qed.

Lemma scan_titled_find safe_title output_dir files :
  scan_titled safe_title output_dir files
  = (fun f => (true, Some (path_join output_dir f)))
      <$> find (fun f => titled safe_title f && has_audio_ext f) files.
Proof.
  induction files as [|file files IH]; [done|].
  cbn [scan_titled find]. rewrite scan_exts_existsb, IH.
  unfold titled, has_audio_ext.
  destruct (startswith file safe_title); [|done].
  by destruct (existsb (endswith file) audio_extensions).
Qed.

Lemma scan_any_find output_dir files :
  scan_any output_dir files
  = (fun f => (true, Some (path_join output_dir f)))
      <$> find has_audio_ext files.
Proof.
  induction files as [|file files IH]; [done|].
  cbn [scan_any find]. rewrite scan_exts_existsb, IH.
  unfold has_audio_ext.
  by destruct (existsb (endswith file) audio_extensions).
Qed.

Lemma find_video_file_spec safe_title output_dir files :
  find_video_file safe_title output_dir files
  = discovered output_dir (first_match [titled safe_title] files).
Proof.
  unfold find_video_file. rewrite scan_video_find. simpl.
  by destruct (find (titled safe_title) files).
Qed.

Lemma find_audio_file_spec (transcoding : bool) safe_title output_dir files :
  find_audio_file (if transcoding then Some (lit ".mp3") else None)
    safe_title output_dir files
  = discovered output_dir
      (first_match (audio_tiers transcoding safe_title) files).
Proof.
  unfold find_audio_file.
  rewrite scan_titled_find, scan_any_find.
  destruct transcoding; simpl; [rewrite scan_expected_find|].
  - destruct (find _ files); simpl; [done|].
    destruct (find _ files); simpl; [done|].
    by destruct (find has_audio_ext files).
  - destruct (find _ files); simpl; [done|].
    by destruct (find has_audio_ext files).
Qed.

Lemma discovered_shape output_dir (o : option str) :
  (discovered output_dir o).1 = false -> (discovered output_dir o).2 = None.
Proof. by destruct o. Qed.

(** Priority: a tier that some entry passes wins when no entry passes an
    earlier tier, and its first entry in the listing is the one found. *)
Lemma first_match_priority
    (earlier : list (str -> bool)) (tier : str -> bool)
    (later : list (str -> bool)) (before : list str) (f : str)
    (after : list str) :
  (forall t g, t ∈ earlier -> g ∈ before ++ f :: after -> t g = false) ->
  tier f = true ->
  Forall (fun g => tier g = false) before ->
  first_match (earlier ++ tier :: later) (before ++ f :: after) = Some f.
Proof.
  intros Hearlier Hf Hbefore.
  induction earlier as [|t earlier IH]; cbn [app first_match].
  - assert (Hfind : find tier (before ++ f :: after) = Some f).
    { clear -Hf Hbefore. induction Hbefore as [|g before Hg _ IH]; simpl.
      - by rewrite Hf.
      - by rewrite Hg. }
    by rewrite Hfind.
  - destruct (find t (before ++ f :: after)) as [g|] eqn:Hg.
    + apply find_some in Hg as [Hin Htg].
      rewrite (Hearlier t g) in Htg; [done| |by apply list_elem_of_In].
      apply elem_of_cons. by left.
    + apply IH. intros t' g Ht' Hin. apply Hearlier; [|done].
      apply elem_of_cons. by right.
Qed.

End discovery_facts.

(** ** The download operations, step by step *)

Section download_facts.

Context {W : Type} {host : Host W}.

Implicit Types (url title : value) (output_dir : str) (st : session W).

Lemma download_video_run url output_dir title st :
  download_video url output_dir title st =
    match sanitize_title title with
    | Raised _ => (Returned (false, None), st)
    | Returned safe_title =>
        after_download
          (video_opts (path_join output_dir (safe_title ++ lit ".%(ext)s")))
          url output_dir (find_video_file safe_title output_dir) st
    end.
Proof.
  unfold download_video, try_except, bind, lift, ret, after_download.
  destruct (sanitize_title title) as [safe_title|e]; [|done].
  unfold download, listdir.
  destruct (H_download _ url (world st)) as [[[]|e1] w1]; [|done].
  cbn [world record_call].
  by destruct (H_listdir output_dir w1) as [[files|e2] w2].
Qed.

Lemma download_audio_run url output_dir title st :
  download_audio url output_dir title st =
    match sanitize_title title with
    | Raised _ => (Returned (false, None), st)
    | Returned safe_title =>
        let transcoding := truthy_str (H_which (lit "ffmpeg") (world st)) in
        let output_path := path_join output_dir (safe_title ++ lit ".%(ext)s") in
        after_download
          (if transcoding then audio_opts_mp3 output_path
           else audio_opts_native output_path)
          url output_dir
          (find_audio_file (if transcoding then Some (lit ".mp3") else None)
             safe_title output_dir) st
    end.
Proof.
  unfold download_audio, try_except, bind, lift, ret, after_download, which.
  destruct (sanitize_title title) as [safe_title|e]; [|done].
  destruct (truthy_str (H_which (lit "ffmpeg") (world st))); cbn [fst snd];
    unfold download, listdir;
    (destruct (H_download _ url (world st)) as [[[]|e1] w1]; [|done]);
    cbn [world record_call];
    by destruct (H_listdir output_dir w1) as [[files|e2] w2].
Qed.

(** After the engine call a download returns, and a raise of the engine
    or of the listing gives the failure result. *)
Lemma after_download_safe opts url output_dir found st :
  (forall files, (found files).1 = false -> (found files).2 = None) ->
  exists r st' trace,
    after_download opts url output_dir found st = (Returned r, st')
    /\ calls st' = calls st ++ trace
    /\ user_data st' = user_data st
    /\ (r.1 = false -> r.2 = None)
    /\ (existsb call_raised trace = true -> r = (false, None)).
Proof.
  intros Hfound. unfold after_download.
  destruct (H_download opts url (world st)) as [[[]|e1] w1].
  - destruct (H_listdir output_dir w1) as [[files|e2] w2].
    + eexists _, _, [_; _]. split; [done|]. simpl.
      split; [by rewrite <- app_assoc|]. split; [done|].
      split; [apply Hfound | done].
    + eexists _, _, [_; _]. split; [done|]. simpl.
      split; [by rewrite <- app_assoc|]. by repeat split.
  - eexists _, _, [_]. split; [done|]. simpl. by repeat split.
Qed.

Lemma find_video_file_shape safe_title output_dir files :
  (find_video_file safe_title output_dir files).1 = false ->
  (find_video_file safe_title output_dir files).2 = None.
Proof. rewrite find_video_file_spec. apply discovered_shape. Qed.

Lemma find_audio_file_shape (transcoding : bool) safe_title output_dir files :
  (find_audio_file (if transcoding then Some (lit ".mp3") else None)
     safe_title output_dir files).1 = false ->
  (find_audio_file (if transcoding then Some (lit ".mp3") else None)
     safe_title output_dir files).2 = None.
Proof. rewrite find_audio_file_spec. apply discovered_shape. Qed.

Lemma download_video_safe url output_dir title st :
  exists r st' trace,
    download_video url output_dir title st = (Returned r, st')
    /\ calls st' = calls st ++ trace
    /\ user_data st' = user_data st
    /\ (r.1 = false -> r.2 = None)
    /\ (existsb call_raised trace = true -> r = (false, None)).
Proof.
  rewrite download_video_run. destruct (sanitize_title title) as [safe_title|e].
  - apply after_download_safe. intros files. apply find_video_file_shape.
  - exists (false, None), st, []. rewrite app_nil_r. by repeat split.
Qed.

Lemma download_audio_safe url output_dir title st :
  exists r st' trace,
    download_audio url output_dir title st = (Returned r, st')
    /\ calls st' = calls st ++ trace
    /\ user_data st' = user_data st
    /\ (r.1 = false -> r.2 = None)
    /\ (existsb call_raised trace = true -> r = (false, None)).
Proof.
  rewrite download_audio_run. destruct (sanitize_title title) as [safe_title|e].
  - apply after_download_safe. intros files. apply find_audio_file_shape.
  - exists (false, None), st, []. rewrite app_nil_r. by repeat split.
Qed.

End download_facts.

(** C7: [download_video] and [download_audio] always return to their
    caller, whatever the engine, the listing or the title do: nothing
    propagates. When a call on the host raised, the result is the failure
    result, and a result without success carries no path. *)
Theorem download_never_raises
    {W : Type} {host : Host W}
    (url : value) (output_dir : str) (title : value) (st : session W) :
  (exists r st' trace,
      download_video url output_dir title st = (Returned r, st')
      /\ calls st' = calls st ++ trace
      /\ (r.1 = false -> r.2 = None)
      /\ (existsb call_raised trace = true -> r = (false, None)))
  /\ (exists r st' trace,
      download_audio url output_dir title st = (Returned r, st')
      /\ calls st' = calls st ++ trace
      /\ (r.1 = false -> r.2 = None)
      /\ (existsb call_raised trace = true -> r = (false, None))).
Proof.
  split.
  - destruct (download_video_safe url output_dir title st)
      as (r & st' & trace & Hrun & Hc & _ & Hshape & Hraise).
    by exists r, st', trace.
  - destruct (download_audio_safe url output_dir title st)
      as (r & st' & trace & Hrun & Hc & _ & Hshape & Hraise).
    by exists r, st', trace.
Qed.

(** C2, as the code has it: when the engine and the listing succeed, the
    audio download returns the first entry of the listing in this order
    of priority: (1) only when the transcoder is there, an entry that
    starts with the safe title and ends with [.mp3]; (2) an entry that
    starts with the safe title and ends with one of the audio extensions
    [.mp3], [.m4a], [.webm], [.ogg], [.aac], [.opus]; (3) any entry that
    ends with one of these six. A tier that an entry passes wins over
    the tiers after it wherever that entry stands in the listing; inside
    a tier the first entry of the listing wins. The video download returns the first
    entry that starts with the safe title, whatever its extension. When
    no entry passes, and so for an empty directory, the result is the
    failure result without a path. *)
Theorem output_discovery_priority
    {W : Type} {host : Host W} (k : kind)
    (url title output_dir : str) (files : list str)
    (st : session W) (w1 w2 : W) :
  let safe_title := sanitize_filename title in
  let transcoding := truthy_str (H_which (lit "ffmpeg") (world st)) in
  let output_path := path_join output_dir (safe_title ++ lit ".%(ext)s") in
  H_download (opts_of_kind k transcoding output_path) (VStr url) (world st)
    = (Returned tt, w1) ->
  H_listdir output_dir w1 = (Returned files, w2) ->
  (download_of_kind k (VStr url) output_dir (VStr title) st).1
    = Returned (discovered output_dir
                  (first_match (tiers_of_kind k transcoding safe_title) files))
  /\ (files = [] ->
      (download_of_kind k (VStr url) output_dir (VStr title) st).1
        = Returned (false, None))
  /\ tiers_of_kind Video transcoding safe_title = [titled safe_title]
  /\ tiers_of_kind Audio true safe_title
     = [ (fun f => titled safe_title f && endswith f (lit ".mp3"));
         (fun f => titled safe_title f && has_audio_ext f);
         has_audio_ext ]
  /\ tiers_of_kind Audio false safe_title
     = [ (fun f => titled safe_title f && has_audio_ext f); has_audio_ext ]
  /\ (forall f,
        has_audio_ext f
        = endswith f (lit ".mp3") || endswith f (lit ".m4a")
          || endswith f (lit ".webm") || endswith f (lit ".ogg")
          || endswith f (lit ".aac") || endswith f (lit ".opus"))
  /\ (forall f, titled safe_title f = true <-> exists rest, f = safe_title ++ rest)
  /\ (forall f ext, endswith f ext = true <-> exists stem, f = stem ++ ext)
  /\ (forall earlier tier later before f after,
        tiers_of_kind k transcoding safe_title = earlier ++ tier :: later ->
        files = before ++ f :: after ->
        (forall t g, t ∈ earlier -> g ∈ files -> t g = false) ->
        tier f = true ->
        Forall (fun g => tier g = false) before ->
        (download_of_kind k (VStr url) output_dir (VStr title) st).1
          = Returned (true, Some (path_join output_dir f))).
Proof.
  intros safe_title transcoding output_path Hdl Hls.
  assert (Hrun : (download_of_kind k (VStr url) output_dir (VStr title) st).1
    = Returned (discovered output_dir
                  (first_match (tiers_of_kind k transcoding safe_title) files))).
  { destruct k; cbn [download_of_kind opts_of_kind tiers_of_kind] in *.
    - rewrite download_video_run. cbn [sanitize_title]. unfold after_download.
      fold safe_title output_path. rewrite Hdl, Hls. cbn [fst].
      f_equal. apply find_video_file_spec.
    - rewrite download_audio_run. cbn [sanitize_title]. unfold after_download.
      fold safe_title transcoding output_path. cbv zeta.
      destruct transcoding; rewrite Hdl, Hls; cbn [fst]; f_equal;
        [apply (find_audio_file_spec true) | apply (find_audio_file_spec false)]. }
  split; [exact Hrun|].
  split; [intros ->; rewrite Hrun; by destruct k, transcoding|].
  split; [done|]. split; [done|]. split; [done|].
  split.
  { intros f. unfold has_audio_ext, audio_extensions. cbn [existsb].
    rewrite orb_false_r, !orb_assoc. reflexivity. }
  split; [intros f; apply startswith_spec|].
  split; [intros f ext; apply endswith_spec|].
  intros earlier tier later before f after Htiers Hfiles Hearlier Hf Hbefore.
  rewrite Hrun, Htiers, Hfiles. rewrite Hfiles in Hearlier.
  by rewrite first_match_priority.
Qed.

Lemma output_discovery_priority_witness :
  (@download_audio unit (scripted three_tiers)
     (VStr (lit "https://youtu.be/abc123")) (lit "/tmp/tmpdl")
     (VStr (lit "My_Title")) idle).1
    = Returned (true, Some (lit "/tmp/tmpdl/My_Title.mp3"))
  /\ (@download_audio unit (scripted three_tiers_plain)
     (VStr (lit "https://youtu.be/abc123")) (lit "/tmp/tmpdl")
     (VStr (lit "My_Title")) idle).1
    = Returned (true, Some (lit "/tmp/tmpdl/My_Title.webm"))
  /\ (@download_video unit (scripted three_tiers)
     (VStr (lit "https://youtu.be/abc123")) (lit "/tmp/tmpdl")
     (VStr (lit "My_Title")) idle).1
    = Returned (true, Some (lit "/tmp/tmpdl/My_Title.webm")).
Proof.
  split; [|split].
  - apply (@output_discovery_priority unit (scripted three_tiers) Audio
             (lit "https://youtu.be/abc123") (lit "My_Title") (lit "/tmp/tmpdl")
             three_files idle tt tt); reflexivity.
  - apply (@output_discovery_priority unit (scripted three_tiers_plain) Audio
             (lit "https://youtu.be/abc123") (lit "My_Title") (lit "/tmp/tmpdl")
             three_files idle tt tt); reflexivity.
  - apply (@output_discovery_priority unit (scripted three_tiers) Video
             (lit "https://youtu.be/abc123") (lit "My_Title") (lit "/tmp/tmpdl")
             three_files idle tt tt); reflexivity.
Defined.

(** With the transcoder, the transcoded file is found although the
    original stream comes first in the listing. *)
Example download_audio_prefers_mp3 :
  (@download_audio unit (scripted transcoded)
     (VStr (lit "https://youtu.be/abc123")) (lit "/tmp/tmpdl")
     (VStr (lit "My_Title")) idle).1
    = Returned (true, Some (lit "/tmp/tmpdl/My_Title.mp3")).
Proof. vm_compute. reflexivity. Qed.

(** C2, as stated, fails for the video kind: with the listing
    [My Title.txt], [My Title.mp4] the video download returns the first
    entry, which ends with no audio or video extension, although the
    second one starts with the safe title and ends with [.mp4]. *)
Lemma download_video_ignores_extension :
  (@download_video unit (scripted only_third)
     (VStr (lit "https://youtu.be/abc123")) (lit "/tmp/tmpdl")
     (VStr (lit "My Title")) idle).1
    = Returned (true, Some (lit "/tmp/tmpdl/My Title.txt"))
  /\ existsb (endswith (lit "My Title.txt")) (lit ".mp4" :: audio_extensions)
     = false
  /\ titled (sanitize_filename (lit "My Title")) (lit "My Title.mp4")
     && endswith (lit "My Title.mp4") (lit ".mp4") = true.
Proof. repeat split; vm_compute; reflexivity. Qed.

(** ** The session state *)

Create HintDb keeps discriminated.

Section session_facts.

Context {W : Type} {host : Host W}.

Lemma keeps_ret {A} (a : A) : keeps_user_data (@ret W A a).
Proof. by intros st. Qed.

Lemma keeps_throw {A} (e : exception) : keeps_user_data (@throw W A e).
Proof. by intros st. Qed.

Lemma keeps_lift {A} (o : outcome A) : keeps_user_data (@lift W A o).
Proof. by intros st. Qed.

Lemma keeps_bind {A B} (m : M W A) (k : A -> M W B) :
  keeps_user_data m -> (forall a, keeps_user_data (k a)) ->
  keeps_user_data (bind m k).
Proof.
  intros Hm Hk st. unfold bind. specialize (Hm st).
  destruct (m st) as [[a|e] st1]; simpl in *; [|done].
  by rewrite Hk.
Qed.

Lemma keeps_try_except {A} (body : M W A) (handler : exception -> M W A) :
  keeps_user_data body -> (forall e, keeps_user_data (handler e)) ->
  keeps_user_data (try_except body handler).
Proof.
  intros Hb Hh st. unfold try_except. specialize (Hb st).
  destruct (body st) as [[a|e] st1]; simpl in *; [done|].
  by rewrite Hh.
Qed.

Lemma keeps_if {A} (b : bool) (m1 m2 : M W A) :
  keeps_user_data m1 -> keeps_user_data m2 ->
  keeps_user_data (if b then m1 else m2).
Proof. by destruct b. Qed.

Lemma keeps_extract_info opts url : keeps_user_data (extract_info opts url).
Proof.
  intros st. unfold extract_info.
  by destruct (H_extract_info opts url (world st)).
Qed.

Lemma keeps_download opts url : keeps_user_data (download opts url).
Proof.
  intros st. unfold download. by destruct (H_download opts url (world st)).
Qed.

Lemma keeps_listdir dir : keeps_user_data (listdir dir).
Proof. intros st. unfold listdir. by destruct (H_listdir dir (world st)). Qed.

Lemma keeps_open_file file : keeps_user_data (open_file file).
Proof. intros st. unfold open_file. by destruct (H_open file (world st)). Qed.

Lemma keeps_mkdtemp : keeps_user_data mkdtemp.
Proof. intros st. unfold mkdtemp. by destruct (H_mkdtemp (world st)). Qed.

Lemma keeps_rmtree dir : keeps_user_data (rmtree dir).
Proof. intros st. unfold rmtree. by destruct (H_rmtree dir (world st)). Qed.

Lemma keeps_which name : keeps_user_data (which name).
Proof. by intros st. Qed.

Lemma keeps_path_exists file : keeps_user_data (path_exists file).
Proof. by intros st. Qed.

Lemma keeps_send a : keeps_user_data (@send W a).
Proof. by intros st. Qed.

Lemma keeps_get_user_data k : keeps_user_data (@get_user_data W k).
Proof. by intros st. Qed.

Lemma keeps_with_temporary_directory {A} (body : str -> M W A) :
  (forall dir, keeps_user_data (body dir)) ->
  keeps_user_data (with_temporary_directory body).
Proof.
  intros Hb. unfold with_temporary_directory.
  apply keeps_bind; [apply keeps_mkdtemp|].
  intros dir st. specialize (Hb dir st).
  destruct (body dir st) as [r st1]; simpl in *.
  pose proof (keeps_rmtree dir st1) as Hrm.
  destruct (rmtree dir st1) as [[[]|e] st2]; simpl in *; congruence.
Qed.

Hint Resolve keeps_ret keeps_throw keeps_lift keeps_extract_info
  keeps_download keeps_listdir keeps_open_file keeps_mkdtemp keeps_rmtree
  keeps_which keeps_path_exists keeps_send keeps_get_user_data : keeps.

(** One step through the structure of a handler. *)
Ltac keeps_step :=
  lazymatch goal with
  | |- keeps_user_data (bind _ _) => apply keeps_bind; [|intros ?]
  | |- keeps_user_data (try_except _ _) => apply keeps_try_except; [|intros ?]
  | |- keeps_user_data (with_temporary_directory _) =>
      apply keeps_with_temporary_directory; intros ?
  | |- keeps_user_data (if _ then _ else _) => apply keeps_if
  | |- keeps_user_data _ => solve [auto with keeps]
  end.

Lemma keeps_download_video url output_dir title :
  keeps_user_data (download_video url output_dir title).
Proof. unfold download_video. repeat keeps_step. Qed.

Lemma keeps_download_audio url output_dir title :
  keeps_user_data (download_audio url output_dir title).
Proof. unfold download_audio. repeat keeps_step. Qed.

Hint Resolve keeps_download_video keeps_download_audio : keeps.

Lemma keeps_download_and_send video_info format_type :
  keeps_user_data (download_and_send video_info format_type).
Proof. unfold download_and_send. repeat keeps_step. Qed.

Lemma keeps_handle_callback data : keeps_user_data (handle_callback data).
Proof.
  unfold handle_callback. repeat keeps_step.
  match goal with |- keeps_user_data (match ?o with _ => _ end) =>
    destruct o as [d|] end; [|auto with keeps].
  repeat keeps_step; apply keeps_download_and_send.
Qed.

Lemma keeps_try_strategies url l : keeps_user_data (try_strategies url l).
Proof.
  induction l as [|opts rest IH]; simpl; [auto with keeps|].
  apply keeps_bind.
  - unfold try_strategy. repeat keeps_step.
  - intros [d|]; [auto with keeps | exact IH].
Qed.

Lemma keeps_get_video_info url : keeps_user_data (get_video_info url).
Proof.
  unfold get_video_info. apply keeps_try_except;
    [apply keeps_try_strategies | auto with keeps].
Qed.

(** [check_likes] stores the record it was given, or nothing. *)
Lemma check_likes_user_data likes_threshold (d : dict) (st : session W) :
  let st' := (check_likes likes_threshold d st).2 in
  user_data st' = user_data st
  \/ user_data st' = <["video_info" := d]> (user_data st).
Proof.
  unfold check_likes, bind, lift, send, set_user_data.
  destruct (format_duration _) as [duration|e]; [|by left].
  destruct (py_lt _ _) as [[]|e]; simpl; auto.
Qed.

Lemma process_youtube_url_user_data likes_threshold url (st : session W) :
  let st' := (process_youtube_url likes_threshold url st).2 in
  user_data st' = user_data st
  \/ exists d, user_data st' = <["video_info" := d]> (user_data st).
Proof.
  cbv zeta. remember (process_youtube_url likes_threshold url st).2 as st' eqn:E.
  unfold process_youtube_url in E. unfold bind at 1 in E. unfold send at 1 in E.
  set (st0 := mkSession _ _ _ _) in E. unfold bind in E.
  pose proof (keeps_get_video_info url st0) as Hk.
  destruct (get_video_info url st0) as [[[d|]|e] st1]; simpl in *; subst st'.
  - destruct (bool_decide (d = ∅)); simpl.
    + left. by rewrite Hk.
    + destruct (check_likes_user_data likes_threshold d st1) as [H|H];
        rewrite H, Hk; eauto.
  - left. by rewrite Hk.
  - left. by rewrite Hk.
Qed.

End session_facts.

(** C8, as the code has it: neither a cancel nor a format choice clears
    the pending record: [handle_callback] leaves [context.user_data] as
    it found it, whatever the host does. Handling a URL leaves it alone
    too or writes the one slot [video_info], so a later URL that passes
    the gate replaces the pending record and a session never holds more
    than one. *)
Theorem pending_record_lifecycle
    {W : Type} {host : Host W} (likes_threshold : Z) :
  (forall (data : str) (st : session W),
      user_data (handle_callback data st).2 = user_data st)
  /\ (forall (url : str) (st : session W),
      let st' := (process_youtube_url likes_threshold url st).2 in
      user_data st' = user_data st
      \/ exists d, user_data st' = <["video_info" := d]> (user_data st)).
Proof.
  split.
  - intros data. apply keeps_handle_callback.
  - intros url st. apply process_youtube_url_user_data.
Qed.

(** C8, as stated, fails: after a cancel, and after a format choice, the
    record that was pending is still there. *)
Lemma callback_keeps_pending_record :
  user_data awaiting_choice !! "video_info" = Some (to_dict sample_metadata)
  /\ user_data
       (@handle_callback unit (scripted webm_only) (lit "cancel")
          awaiting_choice).2 !! "video_info"
     = Some (to_dict sample_metadata)
  /\ user_data
       (@handle_callback unit (scripted webm_only) (lit "download_mp3")
          awaiting_choice).2 !! "video_info"
     = Some (to_dict sample_metadata).
Proof.
  split; [apply lookup_singleton_eq|].
  split; rewrite keeps_handle_callback; apply lookup_singleton_eq.
Qed.

(** On the channel that delivers every request, the handlers are those
    of the section above. *)
Lemma request_delivering {W : Type} (a : chat_action) (st : session W) :
  @request W (delivering W) a st = send a st.
Proof. reflexivity. Qed.

Lemma download_and_send_on_delivering
    {W : Type} {host : Host W} (video_info : dict) (format_type : str)
    (st : session W) :
  @download_and_send_on W host (delivering W) video_info format_type st
  = download_and_send video_info format_type st.
Proof. reflexivity. Qed.

Lemma handle_callback_on_delivering
    {W : Type} {host : Host W} (data : str) (st : session W) :
  @handle_callback_on W host (delivering W) data st = handle_callback data st.
Proof. reflexivity. Qed.

Lemma process_youtube_url_on_delivering
    {W : Type} {host : Host W} (likes_threshold : Z) (url : str)
    (st : session W) :
  @process_youtube_url_on W host (delivering W) likes_threshold url st
  = process_youtube_url likes_threshold url st.
Proof. reflexivity. Qed.

(** C9, as the code has it: a callback other than cancel (so every
    format choice) that finds no pending record makes two requests, the
    answer to the query and the "video information not found" error, and
    nothing else: the host is not called and the session state is not
    touched. The missing record itself raises nothing: the handler
    returns when both requests are delivered. Neither request is guarded:
    when the answer raises, the handler raises that exception and nothing
    was sent; when the error message raises, the handler raises that
    exception after the answer. *)
Theorem handle_callback_no_session
    {W : Type} {host : Host W} {channel : Channel W}
    (data : str) (st : session W) :
  data <> lit "cancel" ->
  truthy_dict (user_data st !! "video_info") = false ->
  let answered := C_request Answer (world st) in
  let replied := C_request (EditText MsgInfoNotFound None) answered.2 in
  handle_callback_on data st
  = match answered.1 with
    | Raised e =>
        (Raised e,
         mkSession answered.2 (user_data st) (outbox st) (calls st))
    | Returned _ =>
        match replied.1 with
        | Raised e =>
            (Raised e,
             mkSession replied.2 (user_data st) (outbox st ++ [Answer])
               (calls st))
        | Returned _ =>
            (Returned tt,
             mkSession replied.2 (user_data st)
               (outbox st ++ [Answer; EditText MsgInfoNotFound None])
               (calls st))
        end
    end.
Proof.
  intros Hdata Hnone answered replied. subst answered replied.
  unfold handle_callback_on, bind, request at 1.
  destruct (C_request Answer (world st)) as [[[]|e] w1]; [|done].
  cbn [raised fst snd world user_data outbox calls].
  rewrite bool_decide_eq_false_2 by done.
  unfold get_user_data. cbn [user_data].
  assert (Hreq : forall st1 : session W,
    world st1 = w1 -> user_data st1 = user_data st ->
    outbox st1 = outbox st ++ [Answer] -> calls st1 = calls st ->
    request (EditText MsgInfoNotFound None) st1
    = match (C_request (EditText MsgInfoNotFound None) w1).1 with
      | Raised e =>
          (Raised e,
           mkSession (C_request (EditText MsgInfoNotFound None) w1).2
             (user_data st) (outbox st ++ [Answer]) (calls st))
      | Returned _ =>
          (Returned tt,
           mkSession (C_request (EditText MsgInfoNotFound None) w1).2
             (user_data st)
             (outbox st ++ [Answer; EditText MsgInfoNotFound None])
             (calls st))
      end).
  { intros st1 Hw Hu Ho Hc. unfold request. rewrite Hw, Hu, Ho, Hc.
    destruct (C_request (EditText MsgInfoNotFound None) w1) as [[[]|e] w2];
      cbn [raised fst snd]; [by rewrite <- app_assoc | done]. }
  destruct (user_data st !! "video_info") as [d|] eqn:Hd.
  - rewrite Hnone. by apply Hreq.
  - by apply Hreq.
Qed.

Lemma handle_callback_no_session_witness :
  @handle_callback_on unit (scripted webm_only) (delivering unit)
    (lit "download_mp4") idle
  = (Returned tt,
     mkSession tt ∅ [Answer; EditText MsgInfoNotFound None] []).
Proof.
  apply (@handle_callback_no_session unit (scripted webm_only)
           (delivering unit) (lit "download_mp4") idle).
  - discriminate.
  - reflexivity.
Defined.

(** C9, as stated, fails: with no pending record the handler raises when
    Telegram cannot be reached, and it raises after the answer, without
    any error message, when only the second request fails. *)
Lemma handle_callback_channel_down :
  user_data idle !! "video_info" = None
  /\ @handle_callback_on unit (scripted webm_only) offline
       (lit "download_mp4") idle
     = (Raised NetworkError, idle)
  /\ @handle_callback_on unit (scripted webm_only) answer_only
       (lit "download_mp4") idle
     = (Raised NetworkError, mkSession tt ∅ [Answer] []).
Proof. repeat split. Qed.

(** * Further properties of the code *)

(** ** More on the filename sanitizer *)

(** X1: [sanitize_filename] loses nothing but the characters after the
    100th and the whitespace around what is left: the first 100
    characters of the title, invalid ones replaced, are the result with
    whitespace before and after it. *)
Theorem sanitize_filename_drops (x : str) :
  exists a b,
    take 100 (scrub invalid_chars <$> x) = a ++ sanitize_filename x ++ b
    /\ Forall (fun c => isspace c = true) a
    /\ Forall (fun c => isspace c = true) b.
Proof.
  rewrite sanitize_filename_unfold. apply strip_split.
Qed.

(** X2: the titles that [sanitize_filename] leaves as they are are
    exactly those of at most 100 characters, without invalid character,
    that neither start nor end with whitespace. *)
Theorem sanitize_filename_fixpoint (x : str) :
  sanitize_filename x = x
  <-> Forall (fun c => c ∉ invalid_chars) x
      /\ length x ≤ 100
      /\ head_ok x
      /\ head_ok (reverse x).
Proof.
  split.
  - intros E. rewrite <- E at 1 2.
    split; [apply sanitize_filename_clean|].
    split; [apply sanitize_filename_length|].
    rewrite <- E, sanitize_filename_unfold. apply strip_head_ok.
  - intros (Hclean & Hlen & Hh & Hl).
    rewrite sanitize_filename_unfold, scrub_id, take_ge by done.
    by apply strip_fix.
Qed.

(** ** More on the URL classifier *)

(** X3: the match is anchored at the first character: a text that does
    not begin with [h], [w], [y] or [m] is refused, whatever follows, so
    a URL after a space, a newline or other words is not recognised. *)
Theorem is_youtube_url_anchored
    (unicode_isalnum : char -> bool) (c : char) (s : str) :
  c ∉ lit "hwym" ->
  is_youtube_url unicode_isalnum (c :: s) = false.
Proof.
  intros Hc. destruct (is_youtube_url unicode_isalnum (c :: s)) eqn:E; [|done].
  exfalso. apply is_youtube_url_iff in E.
  destruct E as (sch & stem & d & rest & Hsch & Hstem & _ & E).
  apply Hc. unfold known_stems in Hstem.
  list_cases Hsch; list_cases Hstem; simpl in E; injection E as -> _; list_mem.
Qed.

Lemma is_youtube_url_anchored_witness :
  is_youtube_url (fun _ => false) (32%N :: lit "https://youtu.be/abc123") = false.
Proof.
  apply (is_youtube_url_anchored (fun _ => false) 32%N
           (lit "https://youtu.be/abc123")).
  intros H. apply list_elem_of_In in H. simpl in H.
  repeat (destruct H as [H|H]; [discriminate H|]). exact H.
Defined.

(** X4: the two patterns written for "URLs with additional parameters"
    never decide anything: the first five patterns alone accept exactly
    what all seven accept. *)
Theorem is_youtube_url_first_five (unicode_isalnum : char -> bool) (url : str) :
  existsb (fun pattern => re_match pattern url)
    (take 5 (youtube_patterns unicode_isalnum))
  = is_youtube_url unicode_isalnum url.
Proof.
  assert (H6 :
    re_match (nth 5 (youtube_patterns unicode_isalnum) Void) url
    = re_match (nth 0 (youtube_patterns unicode_isalnum) Void) url).
  { apply Bool.eq_iff_eq_true. cbn [nth youtube_patterns].
    rewrite (pattern_spec unicode_isalnum (lit "www.")
               (lit "youtube.com/watch?v=")
               (seq [Opt (seq [Str (lit "&"); Star Dot])]) url eq_refl).
    symmetry.
    apply (pattern_spec unicode_isalnum (lit "www.")
             (lit "youtube.com/watch?v=") Eps url eq_refl). }
  assert (H7 :
    re_match (nth 6 (youtube_patterns unicode_isalnum) Void) url
    = re_match (nth 3 (youtube_patterns unicode_isalnum) Void) url).
  { apply Bool.eq_iff_eq_true. cbn [nth youtube_patterns].
    rewrite (pattern_spec unicode_isalnum (lit "www.")
               (lit "youtube.com/shorts/")
               (seq [Opt (seq [Str (lit "?"); Star Dot])]) url eq_refl).
    symmetry.
    apply (pattern_spec unicode_isalnum (lit "www.")
             (lit "youtube.com/shorts/") Eps url eq_refl). }
  unfold is_youtube_url. cbn [nth youtube_patterns] in H6, H7.
  cbn [youtube_patterns take existsb]. rewrite H6, H7.
  repeat match goal with
         | |- context [re_match ?r url] =>
             let b := fresh "b" in
             generalize (re_match r url); intros b
         end.
  repeat match goal with b : bool |- _ => destruct b end; reflexivity.
Qed.

(** ** [format_duration] *)

Section duration_facts.

Lemma undigits_string_of_uint (d : Decimal.uint) :
  undigits (lit (NilEmpty.string_of_uint d)) = Some d.
Proof.
  induction d as [|d IH|d IH|d IH|d IH|d IH|d IH|d IH|d IH|d IH|d IH];
    [done|..];
    change (lit (NilEmpty.string_of_uint ?x)) with
      (N_of_ascii
         match x with
         | Decimal.D0 _ => "0" | Decimal.D1 _ => "1" | Decimal.D2 _ => "2"
         | Decimal.D3 _ => "3" | Decimal.D4 _ => "4" | Decimal.D5 _ => "5"
         | Decimal.D6 _ => "6" | Decimal.D7 _ => "7" | Decimal.D8 _ => "8"
         | Decimal.D9 _ => "9" | Decimal.Nil => "0"
         end%char
       :: lit (NilEmpty.string_of_uint d));
    cbn [undigits]; rewrite IH; reflexivity.
Qed.

Lemma undigits_zeros (k : nat) (s : str) :
  undigits (replicate k 48%N ++ s) = Nat.iter k Decimal.D0 <$> undigits s.
Proof.
  induction k as [|k IH]; simpl.
  - by destruct (undigits s).
  - change (undigits (replicate k 48%N ++ s)) with
      (undigits (replicate k 48%N ++ s)) in *.
    rewrite IH. by destruct (undigits s).
Qed.

Lemma read_decimal_format_02d (h : Z) :
  (0 <= h)%Z -> read_decimal (format_02d h) = Some (Z.to_N h).
Proof.
  intros Hh. unfold format_02d, read_decimal.
  destruct (Z.ltb_spec h 0) as [?|_]; [lia|]. rewrite app_nil_l.
  rewrite undigits_zeros. unfold decimal. rewrite undigits_string_of_uint.
  simpl. f_equal.
  rewrite <- DecimalN.Unsigned.of_uint_norm, DecimalFacts.unorm_iter_D0,
    DecimalN.Unsigned.of_uint_norm, DecimalN.Unsigned.of_to.
  by rewrite Zabs2N.abs_N_nonneg.
Qed.

Lemma format_02d_length (h : Z) : (0 <= h)%Z -> 2 ≤ length (format_02d h).
Proof.
  intros Hh. unfold format_02d.
  destruct (Z.ltb_spec h 0) as [?|_]; [lia|].
  rewrite app_nil_l. destruct (decimal (Z.abs_N h)) as [|x [|y ds]]; simpl; lia.
Qed.

Lemma format_02d_small (n : Z) :
  (0 <= n < 100)%Z -> format_02d n = two_digits n.
Proof.
  intros Hn.
  assert (Hall : forallb
            (fun k => bool_decide (format_02d (Z.of_nat k)
                                   = two_digits (Z.of_nat k)))
            (List.seq 0 100) = true) by (vm_compute; reflexivity).
  rewrite forallb_forall in Hall.
  specialize (Hall (Z.to_nat n)). rewrite Z2Nat.id in Hall by lia.
  eapply bool_decide_eq_true_1. apply Hall, in_seq. lia.
Qed.

Lemma two_digits_inj (a b : Z) :
  (0 <= a < 100)%Z -> (0 <= b < 100)%Z ->
  two_digits a = two_digits b -> a = b.
Proof.
  intros Ha Hb E. unfold two_digits in E. injection E as E1 E2.
  assert (a / 10 = b / 10)%Z.
  { apply (Z2N.inj (a / 10) (b / 10)); [apply Z.div_pos; lia..|]. lia. }
  assert (a mod 10 = b mod 10)%Z.
  { apply (Z2N.inj (a mod 10) (b mod 10)); [apply Z.mod_pos_bound; lia..|]. lia. }
  rewrite (Z.div_mod a 10), (Z.div_mod b 10) by lia. congruence.
Qed.

(** The fields of the clock. *)
Lemma clock_fields (s : Z) :
  (0 <= s)%Z ->
  (0 <= s / 60 / 60)%Z
  /\ (0 <= s / 60 mod 60 < 60)%Z
  /\ (0 <= s mod 60 < 60)%Z
  /\ s = (3600 * (s / 60 / 60) + 60 * (s / 60 mod 60) + s mod 60)%Z.
Proof.
  intros Hs.
  pose proof (Z.div_mod s 60 ltac:(lia)).
  pose proof (Z.div_mod (s / 60) 60 ltac:(lia)).
  pose proof (Z.mod_pos_bound s 60 ltac:(lia)).
  pose proof (Z.mod_pos_bound (s / 60) 60 ltac:(lia)).
  assert (0 <= s / 60)%Z by (apply Z.div_pos; lia).
  assert (0 <= s / 60 / 60)%Z by (apply Z.div_pos; lia).
  lia.
Qed.

End duration_facts.

Lemma format_duration_nonneg (s : Z) :
  (0 <= s)%Z ->
  format_duration (VInt s)
  = Returned
      (if (s =? 0)%Z then lit "Unknown"
       else if (0 <? s / 60 / 60)%Z
       then format_02d (s / 60 / 60)
            ++ lit ":" ++ two_digits (s / 60 mod 60)
            ++ lit ":" ++ two_digits (s mod 60)
       else two_digits (s / 60 mod 60) ++ lit ":" ++ two_digits (s mod 60)).
Proof.
  intros Hs. destruct (clock_fields s Hs) as (_ & Hm & Hsec & _).
  unfold format_duration.
  rewrite (format_02d_small (s / 60 mod 60)), (format_02d_small (s mod 60))
    by lia.
  destruct (s =? 0)%Z; [done|]. by destruct (0 <? s / 60 / 60)%Z.
Qed.

(** X5: under a hundred hours a duration is shown as a clock of
    two-digit fields: minutes and seconds below one hour, hours, minutes
    and seconds from one hour on. *)
Theorem format_duration_clock (s : Z) :
  (0 < s < 360000)%Z ->
  format_duration (VInt s)
  = Returned
      (if (s <? 3600)%Z
       then two_digits (s / 60) ++ lit ":" ++ two_digits (s mod 60)
       else two_digits (s / 3600) ++ lit ":" ++ two_digits (s / 60 mod 60)
            ++ lit ":" ++ two_digits (s mod 60)).
Proof.
  intros Hs. rewrite format_duration_nonneg by lia.
  destruct (Z.eqb_spec s 0) as [?|_]; [lia|].
  assert (Hh : (s / 60 / 60 = s / 3600)%Z) by (by rewrite Z.div_div by lia).
  rewrite Hh.
  destruct (Z.ltb_spec s 3600) as [Hlt|Hge].
  - assert (s / 3600 = 0)%Z as -> by (apply Z.div_small; lia).
    assert (s / 60 < 60)%Z by (apply Z.div_lt_upper_bound; lia).
    assert (0 <= s / 60)%Z by (apply Z.div_pos; lia).
    by rewrite (Z.mod_small (s / 60) 60) by lia.
  - assert (1 <= s / 3600)%Z by (apply Z.div_le_lower_bound; lia).
    assert (s / 3600 < 100)%Z by (apply Z.div_lt_upper_bound; lia).
    destruct (Z.ltb_spec 0 (s / 3600)) as [_|?]; [|lia].
    by rewrite format_02d_small by lia.
Qed.

Lemma format_duration_clock_witness :
  format_duration (VInt 3675) = Returned (lit "01:01:15").
Proof. apply (format_duration_clock 3675). lia. Defined.

(** X6: two durations that are not negative are shown alike only when
    they are equal (and 0 alone is shown as "Unknown"). *)
Theorem format_duration_injective (a b : Z) :
  (0 <= a)%Z -> (0 <= b)%Z ->
  format_duration (VInt a) = format_duration (VInt b) ->
  a = b.
Proof.
  intros Ha Hb E.
  rewrite !format_duration_nonneg in E by done. injection E as E.
  destruct (clock_fields a Ha) as (Hha & Hma & Hsa & Ea).
  destruct (clock_fields b Hb) as (Hhb & Hmb & Hsb & Eb).
  pose proof (format_02d_length _ Hha) as Hla.
  pose proof (format_02d_length _ Hhb) as Hlb.
  destruct (Z.eqb_spec a 0) as [->|Ha0], (Z.eqb_spec b 0) as [->|Hb0];
    [done| | |].
  - destruct (0 <? b / 60 / 60)%Z; apply (f_equal length) in E;
      rewrite ?length_app in E; simpl in E; lia.
  - destruct (0 <? a / 60 / 60)%Z; apply (f_equal length) in E;
      rewrite ?length_app in E; simpl in E; lia.
  - destruct (Z.ltb_spec 0 (a / 60 / 60)) as [Hpa|Hna],
             (Z.ltb_spec 0 (b / 60 / 60)) as [Hpb|Hnb].
    + apply app_inj_2 in E as [Eh E]; [|done].
      apply (f_equal read_decimal) in Eh.
      rewrite !read_decimal_format_02d in Eh by done.
      injection Eh as Eh. apply Z2N.inj in Eh; [|done..].
      injection E as Em1 Em2 Es1 Es2.
      assert (a / 60 mod 60 = b / 60 mod 60)%Z
        by (apply two_digits_inj; [lia..|unfold two_digits; congruence]).
      assert (a mod 60 = b mod 60)%Z
        by (apply two_digits_inj; [lia..|unfold two_digits; congruence]).
      lia.
    + apply (f_equal length) in E. rewrite ?length_app in E. simpl in E. lia.
    + apply (f_equal length) in E. rewrite ?length_app in E. simpl in E. lia.
    + injection E as Em1 Em2 Es1 Es2.
      assert (a / 60 mod 60 = b / 60 mod 60)%Z
        by (apply two_digits_inj; [lia..|unfold two_digits; congruence]).
      assert (a mod 60 = b mod 60)%Z
        by (apply two_digits_inj; [lia..|unfold two_digits; congruence]).
      lia.
Qed.

Lemma format_duration_injective_witness : (3675 = 3675)%Z.
Proof.
  apply (format_duration_injective 3675 3675); [lia | lia | reflexivity].
Defined.

(** A negative duration is shown as the clock of another one. *)
Example format_duration_negative :
  format_duration (VInt (-75)) = format_duration (VInt 3525).
Proof. reflexivity. Qed.

(** ** More on output discovery *)

Section discovery_more.

Lemma first_match_none (tiers : list (str -> bool)) (files : list str) :
  first_match tiers files = None
  <-> forall tier f, tier ∈ tiers -> f ∈ files -> tier f = false.
Proof.
  induction tiers as [|t tiers IH]; simpl.
  - split; [|done]. intros _ tier f Ht. by apply elem_of_nil in Ht.
  - destruct (find t files) as [g|] eqn:Hg.
    + split; [done|]. intros H. apply find_some in Hg as [Hin Htg].
      rewrite (H t g) in Htg; [done| |by apply list_elem_of_In].
      apply elem_of_cons. by left.
    + rewrite IH. split.
      * intros H tier f Ht Hf. apply elem_of_cons in Ht as [->|Ht]; [|by apply H].
        apply (find_none _ _ Hg). by apply list_elem_of_In.
      * intros H tier f Ht Hf. apply H; [|done]. apply elem_of_cons. by right.
Qed.

Lemma first_match_some (tiers : list (str -> bool)) (files : list str) f :
  first_match tiers files = Some f ->
  f ∈ files /\ exists tier, tier ∈ tiers /\ tier f = true.
Proof.
  induction tiers as [|t tiers IH]; simpl; [done|].
  destruct (find t files) as [g|] eqn:Hg.
  - intros [= ->]. apply find_some in Hg as [Hin Htg].
    split; [by apply list_elem_of_In|]. exists t. split; [|done].
    apply elem_of_cons. by left.
  - intros H. destruct (IH H) as (Hin & tier & Ht & Htf).
    split; [done|]. exists tier. split; [|done]. apply elem_of_cons. by right.
Qed.

Lemma mp3_has_audio_ext f : endswith f (lit ".mp3") = true -> has_audio_ext f = true.
Proof. intros H. unfold has_audio_ext, audio_extensions. simpl. by rewrite H. Qed.

Lemma audio_tier_has_audio_ext (transcoding : bool) safe_title tier f :
  tier ∈ audio_tiers transcoding safe_title -> tier f = true ->
  has_audio_ext f = true.
Proof.
  intros Ht Hf. unfold audio_tiers in Ht.
  destruct transcoding; simpl in Ht; list_cases Ht;
    try (apply andb_true_iff in Hf as [_ Hf]); try done.
  by apply mp3_has_audio_ext.
Qed.

Lemma has_audio_ext_in_tiers (transcoding : bool) safe_title :
  has_audio_ext ∈ audio_tiers transcoding safe_title.
Proof.
  unfold audio_tiers. apply elem_of_app. right.
  apply elem_of_cons. right. apply elem_of_cons. by left.
Qed.

Context {W : Type} {host : Host W}.

(** What a download returns when the engine call and the listing
    succeed. *)
Lemma download_of_kind_found (k : kind)
    (url title output_dir : str) (files : list str)
    (st : session W) (w1 w2 : W) :
  H_download
    (opts_of_kind k (truthy_str (H_which (lit "ffmpeg") (world st)))
       (path_join output_dir (sanitize_filename title ++ lit ".%(ext)s")))
    (VStr url) (world st) = (Returned tt, w1) ->
  H_listdir output_dir w1 = (Returned files, w2) ->
  (download_of_kind k (VStr url) output_dir (VStr title) st).1
  = Returned
      (discovered output_dir
         (first_match
            (tiers_of_kind k (truthy_str (H_which (lit "ffmpeg") (world st)))
               (sanitize_filename title))
            files)).
Proof.
  intros Hdl Hls.
  destruct k; cbn [download_of_kind opts_of_kind tiers_of_kind] in *.
  - rewrite download_video_run. cbn [sanitize_title]. unfold after_download.
    rewrite Hdl, Hls. cbn [fst]. f_equal. apply find_video_file_spec.
  - rewrite download_audio_run. cbn [sanitize_title]. unfold after_download.
    cbv zeta.
    destruct (truthy_str (H_which (lit "ffmpeg") (world st)));
      rewrite Hdl, Hls; cbn [fst]; f_equal;
      [apply (find_audio_file_spec true) | apply (find_audio_file_spec false)].
Qed.

End discovery_more.

(** X7: when the engine and the listing succeed, the audio download
    fails exactly when no entry of the scratch directory ends with one of
    the six audio extensions, whatever the title and with or without the
    transcoder; when it succeeds, the path it returns is the directory
    joined with an entry of the listing that has such an extension. *)
Theorem download_audio_fails_iff
    {W : Type} {host : Host W}
    (url title output_dir : str) (files : list str)
    (st : session W) (w1 w2 : W) :
  H_download
    (opts_of_kind Audio (truthy_str (H_which (lit "ffmpeg") (world st)))
       (path_join output_dir (sanitize_filename title ++ lit ".%(ext)s")))
    (VStr url) (world st) = (Returned tt, w1) ->
  H_listdir output_dir w1 = (Returned files, w2) ->
  let res := (download_audio (VStr url) output_dir (VStr title) st).1 in
  (res = Returned (false, None)
   <-> forall f, f ∈ files -> has_audio_ext f = false)
  /\ (forall p, res = Returned (true, Some p) ->
      exists f, f ∈ files /\ has_audio_ext f = true
                /\ p = path_join output_dir f).
Proof.
  intros Hdl Hls res.
  pose proof (download_of_kind_found Audio url title output_dir files st w1 w2
                Hdl Hls) as Hrun.
  cbn [download_of_kind tiers_of_kind] in Hrun. subst res. rewrite Hrun.
  set (tr := truthy_str _) in *. set (safe := sanitize_filename title) in *.
  destruct (first_match (audio_tiers tr safe) files) as [g|] eqn:Hg; simpl.
  - apply first_match_some in Hg as (Hin & tier & Ht & Htg).
    pose proof (audio_tier_has_audio_ext _ _ _ _ Ht Htg) as Hext.
    split.
    + split; [done|]. intros H. rewrite (H g Hin) in Hext. done.
    + intros p [= <-]. by exists g.
  - split; [|done]. split; [|done]. intros _ f Hf.
    apply (proj1 (first_match_none _ _) Hg has_audio_ext f); [|done].
    apply has_audio_ext_in_tiers.
Qed.

Lemma download_audio_fails_iff_witness :
  let res :=
    (@download_audio unit (scripted webm_only)
       (VStr (lit "https://youtu.be/abc123")) (lit "/tmp/tmpdl")
       (VStr (lit "Another title")) idle).1 in
  (res = Returned (false, None)
   <-> forall f, f ∈ [lit "My_Title.webm"] -> has_audio_ext f = false)
  /\ (forall p, res = Returned (true, Some p) ->
      exists f, f ∈ [lit "My_Title.webm"] /\ has_audio_ext f = true
                /\ p = path_join (lit "/tmp/tmpdl") f).
Proof.
  apply (@download_audio_fails_iff unit (scripted webm_only)
           (lit "https://youtu.be/abc123") (lit "Another title")
           (lit "/tmp/tmpdl") [lit "My_Title.webm"] idle tt tt); reflexivity.
Defined.

(** X8: when the engine and the listing succeed, the video download
    fails exactly when no entry of the scratch directory starts with the
    sanitized title; when it succeeds, the path it returns is the
    directory joined with an entry of the listing that starts with it. *)
Theorem download_video_fails_iff
    {W : Type} {host : Host W}
    (url title output_dir : str) (files : list str)
    (st : session W) (w1 w2 : W) :
  H_download
    (video_opts
       (path_join output_dir (sanitize_filename title ++ lit ".%(ext)s")))
    (VStr url) (world st) = (Returned tt, w1) ->
  H_listdir output_dir w1 = (Returned files, w2) ->
  let res := (download_video (VStr url) output_dir (VStr title) st).1 in
  (res = Returned (false, None)
   <-> forall f, f ∈ files -> startswith f (sanitize_filename title) = false)
  /\ (forall p, res = Returned (true, Some p) ->
      exists f, f ∈ files /\ startswith f (sanitize_filename title) = true
                /\ p = path_join output_dir f).
Proof.
  intros Hdl Hls res.
  pose proof (download_of_kind_found Video url title output_dir files st w1 w2
                Hdl Hls) as Hrun.
  cbn [download_of_kind tiers_of_kind] in Hrun. subst res. rewrite Hrun.
  set (safe := sanitize_filename title) in *.
  destruct (first_match [titled safe] files) as [g|] eqn:Hg; simpl.
  - apply first_match_some in Hg as (Hin & tier & Ht & Htg).
    apply list_elem_of_singleton in Ht as ->. unfold titled in Htg.
    split.
    + split; [done|]. intros H. rewrite (H g Hin) in Htg. done.
    + intros p [= <-]. by exists g.
  - split; [|done]. split; [|done]. intros _ f Hf.
    apply (proj1 (first_match_none _ _) Hg (titled safe) f); [|done].
    by apply list_elem_of_singleton.
Qed.

Lemma download_video_fails_iff_witness :
  let res :=
    (@download_video unit (scripted webm_only)
       (VStr (lit "https://youtu.be/abc123")) (lit "/tmp/tmpdl")
       (VStr (lit "Another title")) idle).1 in
  (res = Returned (false, None)
   <-> forall f, f ∈ [lit "My_Title.webm"] ->
         startswith f (sanitize_filename (lit "Another title")) = false)
  /\ (forall p, res = Returned (true, Some p) ->
      exists f, f ∈ [lit "My_Title.webm"]
                /\ startswith f (sanitize_filename (lit "Another title")) = true
                /\ p = path_join (lit "/tmp/tmpdl") f).
Proof.
  apply (@download_video_fails_iff unit (scripted webm_only)
           (lit "https://youtu.be/abc123") (lit "Another title")
           (lit "/tmp/tmpdl") [lit "My_Title.webm"] idle tt tt); reflexivity.
Defined.

(** X9: a title that sanitizes to the empty string (an empty title, or
    one made of whitespace) is a prefix of every name: the video download
    then returns the first entry of the scratch directory, whatever it
    is called. *)
Theorem download_video_empty_title
    {W : Type} {host : Host W}
    (url title output_dir file : str) (files : list str)
    (st : session W) (w1 w2 : W) :
  sanitize_filename title = [] ->
  H_download (video_opts (path_join output_dir (lit ".%(ext)s")))
    (VStr url) (world st) = (Returned tt, w1) ->
  H_listdir output_dir w1 = (Returned (file :: files), w2) ->
  (download_video (VStr url) output_dir (VStr title) st).1
  = Returned (true, Some (path_join output_dir file)).
Proof.
  intros Hempty Hdl Hls.
  rewrite download_video_run. cbn [sanitize_title]. unfold after_download.
  rewrite Hempty. rewrite app_nil_l, Hdl, Hls. cbn [fst].
  unfold find_video_file. by destruct file.
Qed.

Lemma download_video_empty_title_witness :
  (@download_video unit (scripted webm_only)
     (VStr (lit "https://youtu.be/abc123")) (lit "/tmp/tmpdl")
     (VStr (lit "   ")) idle).1
  = Returned (true, Some (lit "/tmp/tmpdl/My_Title.webm")).
Proof.
  apply (@download_video_empty_title unit (scripted webm_only)
           (lit "https://youtu.be/abc123") (lit "   ") (lit "/tmp/tmpdl")
           (lit "My_Title.webm") [] idle tt tt); reflexivity.
Defined.

(** ** More on the gate and on the handling of a URL *)

Section gate_more.

Context {W : Type} {host : Host W}.

Lemma video_info_of_get (info : dict) (url : str) :
  dict_get (video_info_of info url) "like_count" (VInt 0)
    = dict_get info "like_count" (VInt 0)
  /\ dict_get (video_info_of info url) "duration" (VInt 0)
    = dict_get info "duration" (VInt 0)
  /\ dict_get (video_info_of info url) "title" (VStr (lit "Unknown"))
    = dict_get info "title" (VStr (lit "Unknown"))
  /\ dict_get (video_info_of info url) "uploader" (VStr (lit "Unknown"))
    = dict_get info "uploader" (VStr (lit "Unknown"))
  /\ dict_get (video_info_of info url) "url" (VStr []) = VStr url.
Proof.
  unfold dict_get at 1 3 5 7 9. rewrite !video_info_of_lookup. by repeat split.
Qed.


Lemma try_strategies_all_fail (url : str) (l : list ydl_opts) (st : session W) :
  (forall opts w, attempt_failed (H_extract_info opts url w).1 = true) ->
  exists st' results,
    try_strategies url l st = (Returned None, st')
    /\ user_data st' = user_data st
    /\ outbox st' = outbox st
    /\ calls st' = calls st ++ attempts url l results
    /\ length results = length l.
Proof.
  intros Hfail. revert st. induction l as [|opts rest IH]; intros st.
  - exists st, []. simpl. rewrite app_nil_r. by repeat split.
  - cbn [try_strategies]. unfold bind at 1. rewrite try_strategy_spec.
    specialize (Hfail opts (world st)) as Hf.
    destruct (H_extract_info opts url (world st)) as [r w]. simpl in Hf.
    set (st1 := record_call (CallExtract opts url r) w st).
    destruct (IH st1) as (st' & results & Hrun & Hu & Ho & Hc & Hlen).
    assert (Hnone : match r with
                    | Returned (Some info) => Some (video_info_of info url)
                    | Returned None | Raised _ => None
                    end = None) by (by destruct r as [[?|]|?]).
    rewrite Hnone. exists st', (r :: results).
    split; [done|]. split; [done|]. split; [done|].
    split; [|simpl; lia].
    rewrite Hc. subst st1. simpl. by rewrite <- app_assoc.
Qed.

End gate_more.

(** X10: when the like count or the duration of the resolved record is
    [None] or a [str], as when the engine reports [None] for hidden
    likes, the part of [process_youtube_url] after the resolution raises
    [TypeError] before it makes any request to Telegram and before it
    stores anything, whatever the channel: the session is as it was. *)
Theorem check_likes_rejects_non_int
    {W : Type} {channel : Channel W} (likes_threshold : Z)
    (d : dict) (st : session W) :
  is_int (dict_get d "like_count" (VInt 0))
  && is_int (dict_get d "duration" (VInt 0)) = false ->
  check_likes_on likes_threshold d st = (Raised TypeError, st).
Proof.
  unfold check_likes_on, bind, lift.
  destruct (dict_get d "duration" (VInt 0)) as [|seconds|s'].
  - reflexivity.
  - destruct (format_duration_int seconds) as [text ->].
    destruct (dict_get d "like_count" (VInt 0)) as [|likes|s];
      cbn [is_int andb py_lt]; [reflexivity | discriminate | reflexivity].
  - reflexivity.
Qed.

Lemma check_likes_rejects_non_int_witness :
  @check_likes_on unit offline 10 hidden_likes idle = (Raised TypeError, idle)
  /\ @check_likes_on unit (delivering unit) 10 hidden_likes idle
     = (Raised TypeError, idle).
Proof.
  split.
  - apply (@check_likes_rejects_non_int unit offline 10 hidden_likes idle).
    vm_compute. reflexivity.
  - apply (@check_likes_rejects_non_int unit (delivering unit) 10
             hidden_likes idle).
    vm_compute. reflexivity.
Defined.

Lemma process_youtube_url_unresolved_run
    {W : Type} {host : Host W} (likes_threshold : Z)
    (url : str) (st : session W) :
  (forall opts w, attempt_failed (H_extract_info opts url w).1 = true) ->
  exists st' results,
    process_youtube_url likes_threshold url st = (Returned tt, st')
    /\ user_data st' = user_data st
    /\ outbox st' = outbox st
         ++ [ReplyText MsgChecking; EditText MsgResolutionFailure None]
    /\ calls st' = calls st ++ attempts url ydl_opts_list results
    /\ length results = 4.
Proof.
  intros Hfail. unfold process_youtube_url. unfold bind at 1, send at 1.
  set (st0 := mkSession _ _ _ _).
  destruct (try_strategies_all_fail url ydl_opts_list st0 Hfail)
    as (st1 & results & Hrun & Hu & Ho & Hc & Hlen).
  unfold bind, get_video_info, try_except. rewrite Hrun. cbn.
  eexists _, results. split; [reflexivity|]. cbn.
  rewrite Hu, Ho, Hc. subst st0. cbn.
  split; [done|]. split; [by rewrite <- app_assoc|]. done.
Qed.

(** X11: when every configuration fails for a URL and the requests to
    Telegram are delivered, handling the URL makes the four engine calls,
    sends the "checking" notice and then the "could not retrieve video
    information" error, stores nothing and returns. *)
Theorem process_youtube_url_unresolved
    {W : Type} {host : Host W} (likes_threshold : Z)
    (url : str) (st : session W) :
  (forall opts w, attempt_failed (H_extract_info opts url w).1 = true) ->
  exists st' results,
    @process_youtube_url_on W host (delivering W) likes_threshold url st
      = (Returned tt, st')
    /\ user_data st' = user_data st
    /\ outbox st' = outbox st
         ++ [ReplyText MsgChecking; EditText MsgResolutionFailure None]
    /\ calls st' = calls st ++ attempts url ydl_opts_list results
    /\ length results = 4.
Proof.
  intros Hfail.
  destruct (process_youtube_url_unresolved_run likes_threshold url st Hfail)
    as (st' & results & Hrun & Hrest).
  exists st', results. split; [|exact Hrest].
  by rewrite process_youtube_url_on_delivering.
Qed.

Lemma process_youtube_url_unresolved_witness :
  exists st' results,
    @process_youtube_url_on unit (scripted webm_only) (delivering unit) 10
      (lit "https://youtu.be/abc123") idle = (Returned tt, st')
    /\ user_data st' = user_data idle
    /\ outbox st' = outbox idle
         ++ [ReplyText MsgChecking; EditText MsgResolutionFailure None]
    /\ calls st' = calls idle
         ++ attempts (lit "https://youtu.be/abc123") ydl_opts_list results
    /\ length results = 4.
Proof.
  apply (@process_youtube_url_unresolved unit (scripted webm_only) 10
           (lit "https://youtu.be/abc123") idle).
  intros opts w. reflexivity.
Defined.



(** X13: a text that is not of a supported URL shape never reaches the
    engine: [handle_message] answers with the list of supported formats
    and does nothing else. *)
Theorem handle_message_invalid
    {W : Type} {host : Host W} (likes_threshold : Z)
    (unicode_isalnum : char -> bool) (text : str) (st : session W) :
  ~ supported_url unicode_isalnum text ->
  handle_message likes_threshold unicode_isalnum text st
  = (Returned tt,
     mkSession (world st) (user_data st)
       (outbox st ++ [ReplyText MsgInvalidUrl]) (calls st)).
Proof.
  intros Hno. unfold handle_message.
  destruct (is_youtube_url unicode_isalnum text) eqn:E; [|done].
  exfalso. apply Hno. by apply is_youtube_url_iff.
Qed.

Lemma handle_message_invalid_witness :
  @handle_message unit (scripted webm_only) 10 (fun _ => false)
    (lit "hello bot") idle
  = (Returned tt, mkSession tt ∅ [ReplyText MsgInvalidUrl] []).
Proof.
  apply (@handle_message_invalid unit (scripted webm_only) 10 (fun _ => false)
           (lit "hello bot") idle).
  intros H. apply is_youtube_url_iff in H. vm_compute in H. discriminate H.
Defined.

(** ** [download_and_send] and [handle_callback] *)

Section delivery_facts.

Context {W : Type} {host : Host W}.

Lemma after_download_frame opts (url : value) (dir : str)
    (found : list str -> bool * option str) (st : session W) :
  template_in dir opts ->
  exists r st' dl,
    after_download opts url dir found st = (Returned r, st')
    /\ calls st' = calls st ++ dl
    /\ outbox st' = outbox st
    /\ user_data st' = user_data st
    /\ download_calls dir url dl.
Proof.
  intros Hin. unfold after_download.
  destruct (H_download opts url (world st)) as [[[]|e1] w1].
  - destruct (H_listdir dir w1) as [r2 w2].
    exists (match r2 with
            | Returned files => found files
            | Raised _ => (false, None)
            end), (record_call (CallListdir dir r2) w2
                     (record_call (CallDownload opts url (Returned tt)) w1 st)),
      [CallDownload opts url (Returned tt); CallListdir dir r2].
    split; [by destruct r2|]. simpl. split; [by rewrite <- app_assoc|].
    split; [done|]. split; [done|]. by constructor.
  - eexists _, _, [_]. split; [done|]. simpl. split; [done|].
    split; [done|]. split; [done|]. by constructor.
Qed.

Lemma download_frame (format_type : str) (url : value) (dir : str)
    (title : value) (st : session W) :
  exists r st' dl,
    (if bool_decide (format_type = lit "mp4")
     then download_video url dir title
     else download_audio url dir title) st = (Returned r, st')
    /\ calls st' = calls st ++ dl
    /\ outbox st' = outbox st
    /\ user_data st' = user_data st
    /\ download_calls dir url dl.
Proof.
  destruct (bool_decide (format_type = lit "mp4")).
  - rewrite download_video_run.
    destruct (sanitize_title title) as [safe_title|e].
    + apply after_download_frame. by exists safe_title.
    + exists (false, None), st, []. rewrite app_nil_r.
      repeat split; constructor.
  - rewrite download_audio_run.
    destruct (sanitize_title title) as [safe_title|e].
    + apply after_download_frame.
      exists safe_title. by destruct (truthy_str _).
    + exists (false, None), st, []. rewrite app_nil_r.
      repeat split; constructor.
Qed.

Lemma download_and_send_run (video_info : dict) (format_type : str)
    (st : session W) :
  let title := dict_get video_info "title" (VStr (lit "Unknown")) in
  let url := dict_get video_info "url" (VStr []) in
  exists st' tail trace,
    download_and_send video_info format_type st = (Returned tt, st')
    /\ user_data st' = user_data st
    /\ outbox st' = outbox st
         ++ EditText (MsgDownloading format_type title) None :: tail
    /\ calls st' = calls st ++ trace
    /\ send_run format_type title url tail trace.
Proof.
  intros title url. unfold download_and_send. fold title url.
  unfold bind at 1, send at 1. set (st0 := mkSession _ _ _ _).
  unfold try_except, with_temporary_directory. unfold bind at 1, mkdtemp at 1.
  destruct (H_mkdtemp (world st0)) as [[dir|e] w0] eqn:Hmk.
  2:{ unfold send. eexists _, _, _. split; [reflexivity|]. cbn.
      split; [done|]. split; [by rewrite <- app_assoc|]. split; [done|].
      constructor. }
  set (st1 := record_call _ _ _).
  unfold bind at 1.
  destruct (download_frame format_type url dir title st1)
    as (r & st2 & dl & Hrun & Hc & Ho & Hu & Hdl).
  rewrite Hrun. unfold bind at 1.
  assert (Hfound : exists found,
    (if r.1 && truthy_str r.2 then path_exists (default [] r.2) else ret false)
      st2 = (Returned found, st2)).
  { destruct (r.1 && truthy_str r.2); by eexists. }
  destruct Hfound as [found ->].
  destruct found.
  - unfold bind at 1, send at 1. set (st3 := mkSession _ _ _ _).
    unfold bind at 1, open_file at 1.
    destruct (H_open (default [] r.2) (world st3)) as [[[]|e] w3].
    + set (st4 := record_call _ _ _).
      assert (Hreply :
        (if bool_decide (format_type = lit "mp4")
         then send (ReplyVideo (default [] r.2) title)
         else send (ReplyAudio (default [] r.2) title)) st4
        = (Returned tt,
           mkSession (world st4) (user_data st4)
             (outbox st4 ++ [reply format_type (default [] r.2) title])
             (calls st4))).
      { unfold reply. by destruct (bool_decide (format_type = lit "mp4")). }
      unfold bind at 1. rewrite Hreply. unfold send at 1, rmtree.
      cbn [world].
      destruct (H_rmtree dir _) as [[[]|e'] w5].
      * eexists _, _, _. split; [reflexivity|]. cbn.
        rewrite Hu, Ho, Hc. subst st1 st0. cbn.
        split; [done|]. split; [by rewrite <- !app_assoc|].
        split; [by rewrite <- !app_assoc|].
        by apply (run_delivered _ _ _ dir dl (default [] r.2) (Returned tt)).
      * unfold send. eexists _, _, _. split; [reflexivity|]. cbn.
        rewrite Hu, Ho, Hc. subst st1 st0. cbn.
        split; [done|]. split; [by rewrite <- !app_assoc|].
        split; [by rewrite <- !app_assoc|].
        by apply (run_delivered _ _ _ dir dl (default [] r.2) (Raised e')).
    + unfold rmtree. cbn [world record_call].
      destruct (H_rmtree dir _) as [[[]|e'] w5].
      * unfold send. eexists _, _, _. split; [reflexivity|]. cbn.
        rewrite Hu, Ho, Hc. subst st1 st0. cbn.
        split; [done|]. split; [by rewrite <- !app_assoc|].
        split; [by rewrite <- !app_assoc|].
        by apply (run_open_failed _ _ _ dir dl (default [] r.2) e (Returned tt)).
      * unfold send. eexists _, _, _. split; [reflexivity|]. cbn.
        rewrite Hu, Ho, Hc. subst st1 st0. cbn.
        split; [done|]. split; [by rewrite <- !app_assoc|].
        split; [by rewrite <- !app_assoc|].
        by apply (run_open_failed _ _ _ dir dl (default [] r.2) e (Raised e')).
  - unfold send at 1, rmtree. cbn [world].
    destruct (H_rmtree dir _) as [[[]|e'] w5].
    + eexists _, _, _. split; [reflexivity|]. cbn.
      rewrite Hu, Ho, Hc. subst st1 st0. cbn.
      split; [done|]. split; [by rewrite <- !app_assoc|].
      split; [by rewrite <- !app_assoc|].
      by apply (run_not_found _ _ _ dir dl (Returned tt)).
    + unfold send. eexists _, _, _. split; [reflexivity|]. cbn.
      rewrite Hu, Ho, Hc. subst st1 st0. cbn.
      split; [done|]. split; [by rewrite <- !app_assoc|].
      split; [by rewrite <- !app_assoc|].
      by apply (run_not_found _ _ _ dir dl (Raised e')).
Qed.

End delivery_facts.

Section delivery_shapes.

Lemma download_calls_scratch dir url dl :
  download_calls dir url dl ->
  length dl ≤ 2 /\ Forall (scratch_call dir url) dl.
Proof.
  destruct 1; simpl; (split; [lia|]); repeat constructor; done.
Qed.

Lemma cleanup_error_closing format_type r a :
  last (a :: cleanup_error format_type r) = Some a
  \/ exists e, last (a :: cleanup_error format_type r)
               = Some (EditText (MsgDownloadException format_type e) None).
Proof. destruct r as [[]|e]; simpl; eauto. Qed.

Lemma send_run_closing format_type title url tail trace :
  send_run format_type title url tail trace ->
  exists a, last tail = Some a /\ closing a = true.
Proof.
  destruct 1 as [e|dir dl r _|dir dl file e r _|dir dl file r _].
  - by eexists.
  - destruct r as [[]|e]; by eexists.
  - by eexists.
  - destruct r as [[]|e]; by eexists.
Qed.




Lemma send_run_scratch format_type title url tail trace :
  send_run format_type title url tail trace ->
  (exists e, trace = [CallMkdtemp (Raised e)])
  \/ (exists dir mid r,
        trace = CallMkdtemp (Returned dir) :: mid ++ [CallRmtree dir r]
        /\ length mid ≤ 3
        /\ Forall (scratch_call dir url) mid).
Proof.
  destruct 1 as [e|dir dl r Hdl|dir dl file e r Hdl|dir dl file r Hdl].
  - left. by exists e.
  - right. exists dir, dl, r. apply download_calls_scratch in Hdl as [Hl Hall].
    split; [done|]. split; [lia | done].
  - right. exists dir, (dl ++ [CallOpen file (Raised e)]), r.
    apply download_calls_scratch in Hdl as [Hl Hall].
    split; [by rewrite <- app_assoc|]. rewrite length_app. simpl.
    split; [lia|]. apply Forall_app. split; [done|]. by repeat constructor.
  - right. exists dir, (dl ++ [CallOpen file (Returned tt)]), r.
    apply download_calls_scratch in Hdl as [Hl Hall].
    split; [by rewrite <- app_assoc|]. rewrite length_app. simpl.
    split; [lia|]. apply Forall_app. split; [done|]. by repeat constructor.
Qed.

End delivery_shapes.

(** X14: when the requests to Telegram are delivered,
    [download_and_send] returns whatever the host does (the engine, the
    listing, the scratch directory and the file may all fail): after the
    "downloading" notice the user gets a closing message, "sent" or one
    of the two error messages, and that is the last thing sent. *)
Theorem download_and_send_closes
    {W : Type} {host : Host W}
    (video_info : dict) (format_type : str) (st : session W) :
  exists st' tail a,
    @download_and_send_on W host (delivering W) video_info format_type st
      = (Returned tt, st')
    /\ outbox st' = outbox st
         ++ EditText (MsgDownloading format_type
                        (dict_get video_info "title" (VStr (lit "Unknown"))))
              None :: tail
    /\ last tail = Some a
    /\ closing a = true.
Proof.
  destruct (download_and_send_run video_info format_type st)
    as (st' & tail & trace & Hrun & _ & Ho & _ & Hshape).
  destruct (send_run_closing _ _ _ _ _ Hshape) as (a & Hlast & Ha).
  exists st', tail, a. by rewrite download_and_send_on_delivering.
Qed.

(** X15: when the requests to Telegram are delivered, a download that
    created its scratch directory ends by asking for its removal. Of the
    operations recorded on the host (creation of the directory, the
    engine's download, the listing, the opening of the file, the removal
    of the directory; the look-ups of [shutil.which] and
    [os.path.exists] are not recorded): either the creation failed and
    nothing else is recorded, or the record is the creation, at most
    three operations in the directory (the engine, for the URL of the
    record and with an output template in that directory, the listing of
    that directory, the opening of the file), and the request to remove
    the directory as the last one, also when an operation raised. The
    removal may itself raise. *)
Theorem download_and_send_scratch
    {W : Type} {host : Host W}
    (video_info : dict) (format_type : str) (st : session W) :
  exists st' trace,
    @download_and_send_on W host (delivering W) video_info format_type st
      = (Returned tt, st')
    /\ calls st' = calls st ++ trace
    /\ ((exists e, trace = [CallMkdtemp (Raised e)])
        \/ (exists dir mid r,
              trace = CallMkdtemp (Returned dir) :: mid ++ [CallRmtree dir r]
              /\ length mid ≤ 3
              /\ Forall (scratch_call dir
                           (dict_get video_info "url" (VStr []))) mid)).
Proof.
  destruct (download_and_send_run video_info format_type st)
    as (st' & tail & trace & Hrun & _ & _ & Hc & Hshape).
  exists st', trace. rewrite download_and_send_on_delivering.
  split; [done|]. split; [done|].
  by apply (send_run_scratch _ _ _ _ _ Hshape).
Qed.


(** X17: a download started for a record that [get_video_info] built asks
    the engine for the URL that the record was resolved from, and for
    nothing else. *)
Theorem download_and_send_same_url
    {W : Type} {host : Host W}
    (info : dict) (url : str) (format_type : str) (st : session W) :
  exists st' trace,
    download_and_send (video_info_of info url) format_type st
      = (Returned tt, st')
    /\ calls st' = calls st ++ trace
    /\ (forall opts u r, CallDownload opts u r ∈ trace -> u = VStr url)
    /\ (forall opts u r, CallExtract opts u r ∉ trace).
Proof.
  destruct (download_and_send_run (video_info_of info url) format_type st)
    as (st' & tail & trace & Hrun & _ & _ & Hc & Hshape).
  destruct (video_info_of_get info url) as (_ & _ & _ & _ & Hurl).
  rewrite Hurl in Hshape.
  exists st', trace. split; [done|]. split; [done|].
  apply send_run_scratch in Hshape as [[e ->]|(dir & mid & r & -> & _ & Hall)].
  - split.
    + intros opts u r Hin. by apply list_elem_of_singleton in Hin.
    + intros opts u r Hin. by apply list_elem_of_singleton in Hin.
  - rewrite Forall_forall in Hall. split.
    + intros opts u r0 Hin.
      apply elem_of_cons in Hin as [Hin|Hin]; [done|].
      apply elem_of_app in Hin as [Hin|Hin].
      * by destruct (Hall _ Hin).
      * by apply list_elem_of_singleton in Hin.
    + intros opts u r0 Hin.
      apply elem_of_cons in Hin as [Hin|Hin]; [done|].
      apply elem_of_app in Hin as [Hin|Hin].
      * by destruct (Hall _ Hin).
      * by apply list_elem_of_singleton in Hin.
Qed.

(** The runs of [handle_callback] on the channel that delivers. *)
Lemma handle_callback_run
    {W : Type} {host : Host W} (data : str) (st : session W) :
  exists st' rest,
    handle_callback data st = (Returned tt, st')
    /\ outbox st' = outbox st ++ Answer :: rest
    /\ ((data <> lit "download_mp4" /\ data <> lit "download_mp3")
        \/ data = lit "cancel"
        \/ truthy_dict (user_data st !! "video_info") = false ->
        calls st' = calls st /\ world st' = world st).
Proof.
  unfold handle_callback. unfold bind at 1, send at 1.
  set (st0 := mkSession _ _ _ _).
  destruct (bool_decide (data = lit "cancel")) eqn:Hcancel.
  { eexists _, _. split; [reflexivity|]. cbn.
    split; [by rewrite <- app_assoc | done]. }
  apply bool_decide_eq_false in Hcancel.
  unfold bind, get_user_data.
  change (user_data st0) with (user_data st).
  destruct (user_data st !! "video_info") as [d|] eqn:Hd;
    [|eexists _, _; split; [reflexivity|]; cbn;
      split; [by rewrite <- app_assoc | done]].
  destruct (truthy_dict (Some d)) eqn:Htruthy;
    [|eexists _, _; split; [reflexivity|]; cbn;
      split; [by rewrite <- app_assoc | done]].
  destruct (bool_decide (data = lit "download_mp4")) eqn:Hmp4.
  { destruct (download_and_send_run d (lit "mp4") st0)
      as (st' & tail & trace & Hrun & _ & Ho & _ & _).
    eexists st', _. split; [exact Hrun|]. rewrite Ho. subst st0. cbn.
    split; [by rewrite <- app_assoc|].
    apply bool_decide_eq_true in Hmp4.
    intros [[H _]|[H|H]]; done. }
  destruct (bool_decide (data = lit "download_mp3")) eqn:Hmp3.
  { destruct (download_and_send_run d (lit "mp3") st0)
      as (st' & tail & trace & Hrun & _ & Ho & _ & _).
    eexists st', _. split; [exact Hrun|]. rewrite Ho. subst st0. cbn.
    split; [by rewrite <- app_assoc|].
    apply bool_decide_eq_true in Hmp3.
    intros [[_ H]|[H|H]]; done. }
  exists st0, []. by repeat split.
Qed.

(** X18: when the requests to Telegram are delivered, [handle_callback]
    returns whatever the callback data, the session and the host; the
    first thing it sends is the answer to the query; and it touches the
    host only for a format choice ([download_mp4] or [download_mp3]) made
    while a record is pending. *)
Theorem handle_callback_returns
    {W : Type} {host : Host W} (data : str) (st : session W) :
  exists st' rest,
    @handle_callback_on W host (delivering W) data st = (Returned tt, st')
    /\ outbox st' = outbox st ++ Answer :: rest
    /\ ((data <> lit "download_mp4" /\ data <> lit "download_mp3")
        \/ data = lit "cancel"
        \/ truthy_dict (user_data st !! "video_info") = false ->
        calls st' = calls st /\ world st' = world st).
Proof.
  destruct (handle_callback_run data st) as (st' & rest & Hrun & Hrest).
  exists st', rest. split; [|exact Hrest].
  by rewrite handle_callback_on_delivering.
Qed.

(** X19: callback data that is neither cancel nor a format choice is
    answered and otherwise ignored while a record is pending: nothing
    but the answer is sent and nothing changes. *)
Theorem handle_callback_unknown
    {W : Type} {host : Host W} (data : str) (st : session W) :
  data <> lit "cancel" ->
  data <> lit "download_mp4" ->
  data <> lit "download_mp3" ->
  truthy_dict (user_data st !! "video_info") = true ->
  handle_callback data st
  = (Returned tt,
     mkSession (world st) (user_data st) (outbox st ++ [Answer]) (calls st)).
Proof.
  intros Hc H4 H3 Hpending.
  unfold handle_callback, bind, send, get_user_data; simpl.
  rewrite bool_decide_eq_false_2 by done. simpl.
  destruct (user_data st !! "video_info") as [d|] eqn:Hd; [|done].
  rewrite Hpending.
  by rewrite !bool_decide_eq_false_2 by done.
Qed.

Lemma handle_callback_unknown_witness :
  @handle_callback unit (scripted webm_only) (lit "download_flac")
    awaiting_choice
  = (Returned tt,
     mkSession tt (user_data awaiting_choice) [Answer] []).
Proof.
  apply (@handle_callback_unknown unit (scripted webm_only)
           (lit "download_flac") awaiting_choice); try discriminate.
  unfold awaiting_choice. cbn [user_data]. rewrite lookup_singleton_eq.
  vm_compute. reflexivity.
Defined.

(** ** The predicted file name and the text handed to the engine *)

Section prediction_facts.

Lemma startswith_app (p s : str) : startswith (p ++ s) p = true.
Proof.
  induction p as [|c p IH]; simpl; [by destruct s|].
  by rewrite N.eqb_refl, IH.
Qed.

Lemma endswith_app (s e : str) : endswith (s ++ e) e = true.
Proof.
  unfold endswith. rewrite length_app.
  rewrite bool_decide_eq_true_2 by lia.
  replace (length s + length e - length e) with (length s) by lia.
  rewrite drop_app_length. by rewrite bool_decide_eq_true_2.
Qed.

Lemma first_match_head (tier : str -> bool) (tiers : list (str -> bool))
    (files : list str) (f : str) :
  f ∈ files -> tier f = true ->
  exists g, first_match (tier :: tiers) files = Some g
            /\ g ∈ files /\ tier g = true.
Proof.
  intros Hin Hf. simpl. destruct (find tier files) as [g|] eqn:Hg.
  - apply find_some in Hg as [Hing Htg]. exists g.
    split; [done|]. split; [by apply list_elem_of_In | done].
  - apply list_elem_of_In in Hin. rewrite (find_none _ _ Hg f Hin) in Hf. done.
Qed.

Context {W : Type} {host : Host W}.


End prediction_facts.

(** X20: with the transcoder, when the scratch directory holds the file
    that the output template predicts, the sanitized title followed by
    [.mp3], the audio download succeeds with an entry that starts with
    the sanitized title and ends with [.mp3], whatever else is in the
    directory and in whatever order. *)
Theorem download_audio_finds_transcoded
    {W : Type} {host : Host W}
    (url title output_dir : str) (files : list str)
    (st : session W) (w1 w2 : W) :
  let safe_title := sanitize_filename title in
  truthy_str (H_which (lit "ffmpeg") (world st)) = true ->
  H_download
    (audio_opts_mp3 (path_join output_dir (safe_title ++ lit ".%(ext)s")))
    (VStr url) (world st) = (Returned tt, w1) ->
  H_listdir output_dir w1 = (Returned files, w2) ->
  safe_title ++ lit ".mp3" ∈ files ->
  exists f,
    (download_audio (VStr url) output_dir (VStr title) st).1
      = Returned (true, Some (path_join output_dir f))
    /\ f ∈ files
    /\ startswith f safe_title = true
    /\ endswith f (lit ".mp3") = true.
Proof.
  intros safe_title Hff Hdl Hls Hin.
  pose proof (download_of_kind_found Audio url title output_dir files st w1 w2)
    as Hrun.
  cbn [download_of_kind opts_of_kind tiers_of_kind] in Hrun.
  rewrite Hff in Hrun. specialize (Hrun Hdl Hls).
  fold safe_title in Hrun. unfold audio_tiers in Hrun. cbn [app] in Hrun.
  destruct (first_match_head
              (fun f => titled safe_title f && endswith f (lit ".mp3"))
              [ (fun f => titled safe_title f && has_audio_ext f);
                has_audio_ext ]
              files (safe_title ++ lit ".mp3") Hin)
    as (g & Hg & Hing & Htg).
  { unfold titled. by rewrite startswith_app, endswith_app. }
  rewrite Hg in Hrun. apply andb_true_iff in Htg as [Ht He].
  by exists g.
Qed.

Lemma download_audio_finds_transcoded_witness :
  exists f,
    (@download_audio unit (scripted transcoded)
       (VStr (lit "https://youtu.be/abc123")) (lit "/tmp/tmpdl")
       (VStr (lit "My_Title")) idle).1
      = Returned (true, Some (path_join (lit "/tmp/tmpdl") f))
    /\ f ∈ [lit "My_Title.webm"; lit "My_Title.mp3"]
    /\ startswith f (sanitize_filename (lit "My_Title")) = true
    /\ endswith f (lit ".mp3") = true.
Proof.
  apply (@download_audio_finds_transcoded unit (scripted transcoded)
           (lit "https://youtu.be/abc123") (lit "My_Title") (lit "/tmp/tmpdl")
           [lit "My_Title.webm"; lit "My_Title.mp3"] idle tt tt);
    try reflexivity.
  list_mem.
Defined.


